(** * gethService: node lifecycle and chain-head subscription manager

    A shallow embedding of [src/store/client/gethService.js].  The service is
    a JavaScript class whose methods run to completion on a single thread and
    talk to three collaborators: the [geth] process object (an event emitter
    with an [rpc] method), the timers of the host, and the store's
    [dispatch].  Each method is embedded as a function in a state-and-
    exception monad over a [World] that holds the service's fields together
    with what the collaborators have been asked to do. *)

From Stdlib Require Import List String Ascii Bool Arith ZArith NArith Lia.
From Stdlib Require Import HexString DecimalString.
Import ListNotations.

Local Open Scope string_scope.
Local Open Scope list_scope.

Set Warnings "-register-all".

(** ** JavaScript values

    The values that cross the RPC channel are JSON values.  Numbers are kept
    as integers: the node only ever sends integral quantities.  An object is
    an association list; the first binding of a name is the property's
    value. *)

Inductive JsVal : Type :=
| JUndefined
| JNull
| JBool (b : bool)
| JNum (z : Z)
| JStr (s : string)
| JArr (items : list JsVal)
| JObj (fields : list (string * JsVal)).

(** [!v] is [negb (truthy v)]. *)
Definition truthy (v : JsVal) : bool :=
  match v with
  | JUndefined | JNull => false
  | JBool b => b
  | JNum z => negb (Z.eqb z 0)
  | JStr s => negb (String.eqb s EmptyString)
  | JArr _ | JObj _ => true
  end.

(** [undefined] and [null] cannot be destructured: doing so throws. *)
Definition nullish (v : JsVal) : bool :=
  match v with
  | JUndefined | JNull => true
  | _ => false
  end.

Fixpoint lookupField (k : string) (fs : list (string * JsVal)) : JsVal :=
  match fs with
  | [] => JUndefined
  | (k', v) :: fs' => if String.eqb k k' then v else lookupField k fs'
  end.

(** Property read [v.k] for the property names this file reads ([result],
    [status], [number], [timestamp], the five sync counters, [network],
    [syncMode]): none of them exists on a primitive or on an array, so the
    read gives [undefined] there. *)
Definition getProp (v : JsVal) (k : string) : JsVal :=
  match v with
  | JObj fs => lookupField k fs
  | _ => JUndefined
  end.

(** Structural equality, used where the emitter compares event names. *)
Fixpoint JsVal_eqb (a b : JsVal) {struct a} : bool :=
  let fix items_eqb (xs ys : list JsVal) {struct xs} : bool :=
    match xs, ys with
    | [], [] => true
    | x :: xs', y :: ys' => JsVal_eqb x y && items_eqb xs' ys'
    | _, _ => false
    end in
  let fix fields_eqb (xs ys : list (string * JsVal)) {struct xs} : bool :=
    match xs, ys with
    | [], [] => true
    | (kx, x) :: xs', (ky, y) :: ys' =>
        String.eqb kx ky && JsVal_eqb x y && fields_eqb xs' ys'
    | _, _ => false
    end in
  match a, b with
  | JUndefined, JUndefined => true
  | JNull, JNull => true
  | JBool x, JBool y => Bool.eqb x y
  | JNum x, JNum y => Z.eqb x y
  | JStr x, JStr y => String.eqb x y
  | JArr xs, JArr ys => items_eqb xs ys
  | JObj xs, JObj ys => fields_eqb xs ys
  | _, _ => false
  end.

(** ** NumericNormalizer (lines 20-22) *)

(** [typeof str === 'string' && str.startsWith('0x')] *)
Definition isHex (str : JsVal) : bool :=
  match str with
  | JStr s => String.prefix "0x" s
  | _ => false
  end.

(** Digits after the [0x] prefix, most significant first, accumulated into
    an arbitrary-precision natural.  Both letter cases are digits. *)
Fixpoint parseHexDigits (s : string) (acc : N) : option N :=
  match s with
  | EmptyString => Some acc
  | String ch s' =>
      match HexString.ascii_to_digit ch with
      | Some d => parseHexDigits s' (d + 16 * acc)%N
      | None => None
      end
  end.

(** [new BigNumber(str)] for a string that starts with [0x].  bignumber.js
    is a dependency, not part of this repository; it is modelled from its
    documented behaviour on hexadecimal integer literals: at least one digit
    after the prefix, every character a hexadecimal digit, the value exact.
    Anything else is [NaN] here ([None]); a literal with a radix point, which
    the library also accepts, is outside the model. *)
Definition BigNumber (str : string) : option N :=
  match str with
  | String _ (String _ EmptyString) => None
  | String _ (String _ digits) => parseHexDigits digits 0%N
  | _ => None
  end.

(** [.toString(10)]: plain decimal digits, never exponent notation when the
    base is given. *)
Definition toString10 (x : option N) : string :=
  match x with
  | Some n => NilZero.string_of_uint (N.to_uint n)
  | None => "NaN"
  end.

Definition hexToNumberString (str : string) : string :=
  toString10 (BigNumber str).

Definition toNumberString (str : JsVal) : JsVal :=
  match str with
  | JStr s => if isHex str then JStr (hexToNumberString s) else str
  | _ => str
  end.

(** The global [Number(v)] conversion yields an IEEE double.  Floating point
    is not modelled: the result is kept as the conversion applied to its
    argument. *)
Inductive JsNumber : Type :=
| NumberOf (v : JsVal).

Definition Number (v : JsVal) : JsNumber := NumberOf v.

(** The wire encoding of a quantity and its canonical decimal rendering. *)
Definition hexEncode (n : N) : string := HexString.of_N n.
Definition decimalString (n : N) : string :=
  NilZero.string_of_uint (N.to_uint n).

(** ** Outward updates

    Modelled from the spec: the action creators of [./actions] are not
    among the sources.  Each is applied to a payload and the result is
    handed to [dispatch], one discrete update per emitted fact; an update
    is recorded as the creator together with the payload's fields. *)

Module Actions.

Inductive Action : Type :=
| newBlock (blockNumber timestamp : JsNumber)
| updateSyncing
    (startingBlock currentBlock highestBlock knownStates pulledStates : JsVal)
| updatePeerCount (peerCount : JsVal)
| updateNetwork (network : JsVal)
| updateSyncMode (syncMode : JsVal)
| gethStarting
| gethStarted
| gethConnected
| gethDisconnected
| gethStopping
| gethStopped
| gethError (error : JsVal).

End Actions.

Import Actions(Action).

(** ** Functions as listeners

    Every evaluation of an arrow function allocates a new function object;
    [fn_id] is its identity and [fn_site] the arrow it was created from,
    which decides what it does when called.  The methods of the class are
    function objects of their own, one per method name. *)

Inductive ArrowSite : Type :=
| StartingArrow     (* line 55 *)
| StartedArrow      (* line 56 *)
| ConnectArrow      (* line 57 *)
| StoppingArrow     (* line 58 *)
| StoppedArrow      (* line 59 *)
| DisconnectArrow   (* line 60 *)
| ErrorArrow        (* line 61 *)
| NewHeadsArrow     (* lines 207-209 *)
| SyncingArrow.     (* lines 216-218 *)

Record Closure : Type := mkClosure { fn_id : nat; fn_site : ArrowSite }.

Inductive Method : Type :=
| M_onStarting
| M_onStarted
| M_onConnect
| M_onStopping
| M_onStopped
| M_onDisconnect
| M_onError
| M_onNewHeadsSubscriptionResult
| M_onSyncingSubscriptionResult.

Inductive FunctionRef : Type :=
| ArrowRef (c : Closure)
| MethodRef (m : Method).

(** [f === g] on function objects. *)
Definition sameFunction (f : FunctionRef) (c : Closure) : bool :=
  match f with
  | ArrowRef c' => Nat.eqb (fn_id c') (fn_id c)
  | MethodRef _ => false
  end.

(** ** Promises

    What runs when the promise returned by a [geth.rpc] call settles: the
    rest of the [async] function after its [await], or the [then]
    callback. *)

Inductive Continuation : Type :=
| AfterEthSyncing          (* lines 165-172 *)
| AfterGetBlock            (* lines 175-180 *)
| AfterSubscribeNewHeads   (* lines 205-210 *)
| AfterSubscribeSyncing    (* lines 214-218 *)
| AfterPeerCount           (* lines 222-224 *)
| Dropped.                 (* lines 132, 145: the promise is not used *)

Record RpcCall : Type := mkRpc {
  rpc_method : string;
  rpc_params : option (list JsVal)
}.

Inductive GethCall : Type :=
| GethSetConfig (config : JsVal)
| GethStart
| GethStop.

Inductive JsError : Type :=
| TypeError
| Rejection (reason : JsVal).

(** ** The world *)

Record Service : Type := mkService {
  peerCountInterval : option nat;
  syncingSubscriptionId : JsVal;
  newHeadsSubscriptionId : JsVal
}.

Record World : Type := mkWorld {
  this : Service;
  (* the geth collaborator *)
  gethConfig : JsVal;
  gethCalls : list GethCall;
  listeners : list (JsVal * Closure);
  rpcLog : list RpcCall;
  pending : list (nat * Continuation);
  (* timers of the host *)
  timeouts : list nat;
  intervals : list nat;
  (* observers *)
  dispatched : list Action;
  console : list string;
  unhandled : list JsError;
  (* next identity for a function object, a promise or a timer *)
  nextId : nat
}.

(** A new instance: no field of the class is initialised. *)
Definition newService : Service :=
  mkService None JUndefined JUndefined.

Definition initialWorld : World :=
  mkWorld newService JUndefined [] [] [] [] [] [] [] [] [] 0.

Definition setThis (f : Service -> Service) (w : World) : World :=
  mkWorld (f (this w)) (gethConfig w) (gethCalls w) (listeners w) (rpcLog w)
    (pending w) (timeouts w) (intervals w) (dispatched w) (console w)
    (unhandled w) (nextId w).

(** ** State and exceptions *)

Inductive Completion (A : Type) : Type :=
| Normal (a : A)
| Throw (e : JsError).

Arguments Normal {A} a.
Arguments Throw {A} e.

Definition Js (A : Type) : Type := World -> Completion A * World.

Definition ret {A} (a : A) : Js A := fun w => (Normal a, w).

Definition bind {A B} (m : Js A) (k : A -> Js B) : Js B :=
  fun w =>
    match m w with
    | (Normal a, w') => k a w'
    | (Throw e, w') => (Throw e, w')
    end.

Definition throw {A} (e : JsError) : Js A := fun w => (Throw e, w).

Definition modify (f : World -> World) : Js unit :=
  fun w => (Normal tt, f w).

Definition get {A} (f : World -> A) : Js A := fun w => (Normal (f w), w).

Declare Scope js_scope.
Delimit Scope js_scope with js.
Notation "x <- m ;; k" := (bind m (fun x => k))
  (at level 61, m at next level, right associativity) : js_scope.
Notation "m ;; k" := (bind m (fun _ => k))
  (at level 61, right associativity) : js_scope.
Local Open Scope js_scope.

(** [const { a } = v]: a [TypeError] when [v] is [undefined] or [null]. *)
Definition destructurable (v : JsVal) : Js unit :=
  if nullish v then throw TypeError else ret tt.

(** ** Collaborators

    The [geth] object comes from [../../API], which is not among the
    sources.  Its operations are modelled from the interface the
    specification gives for the node process collaborator: configuration
    and process control, an event registration surface keyed by lifecycle
    event names or subscription tokens, and [rpc], a single request with a
    promise of its result.  Each operation records what it was asked to do,
    and none of them throws. *)

Definition withGeth (cfg : JsVal) (calls : list GethCall) (w : World) : World :=
  mkWorld (this w) cfg calls (listeners w) (rpcLog w) (pending w)
    (timeouts w) (intervals w) (dispatched w) (console w) (unhandled w)
    (nextId w).

Definition withListeners (ls : list (JsVal * Closure)) (w : World) : World :=
  mkWorld (this w) (gethConfig w) (gethCalls w) ls (rpcLog w) (pending w)
    (timeouts w) (intervals w) (dispatched w) (console w) (unhandled w)
    (nextId w).

Definition withRpc (log : list RpcCall) (ps : list (nat * Continuation))
    (w : World) : World :=
  mkWorld (this w) (gethConfig w) (gethCalls w) (listeners w) log ps
    (timeouts w) (intervals w) (dispatched w) (console w) (unhandled w)
    (nextId w).

Definition withTimers (once every : list nat) (w : World) : World :=
  mkWorld (this w) (gethConfig w) (gethCalls w) (listeners w) (rpcLog w)
    (pending w) once every (dispatched w) (console w) (unhandled w) (nextId w).

Definition withObservers (ds : list Action) (out : list string)
    (errs : list JsError) (w : World) : World :=
  mkWorld (this w) (gethConfig w) (gethCalls w) (listeners w) (rpcLog w)
    (pending w) (timeouts w) (intervals w) ds out errs (nextId w).

Definition withNextId (n : nat) (w : World) : World :=
  mkWorld (this w) (gethConfig w) (gethCalls w) (listeners w) (rpcLog w)
    (pending w) (timeouts w) (intervals w) (dispatched w) (console w)
    (unhandled w) n.

(** A new identity. *)
Definition fresh : Js nat :=
  fun w => (Normal (nextId w), withNextId (S (nextId w)) w).

(** Modelled from the spec: [geth.setConfig], [geth.start] and [geth.stop]
    of the absent collaborator are recorded as calls; [geth.getConfig]
    gives back the configuration last applied. *)
Definition geth_setConfig (config : JsVal) : Js unit :=
  modify (fun w => withGeth config (gethCalls w ++ [GethSetConfig config]) w).

Definition geth_start : Js unit :=
  modify (fun w => withGeth (gethConfig w) (gethCalls w ++ [GethStart]) w).

Definition geth_stop : Js unit :=
  modify (fun w => withGeth (gethConfig w) (gethCalls w ++ [GethStop]) w).

Definition geth_getConfig : Js JsVal := get gethConfig.

(** Evaluating an arrow function. *)
Definition arrow (site : ArrowSite) : Js Closure :=
  id <- fresh ;; ret (mkClosure id site).

(** Modelled from the spec: [geth.on(eventName, listener)] of the absent
    collaborator appends the listener to those of the emitter. *)
Definition geth_on (eventName : JsVal) (listener : Closure) : Js unit :=
  modify (fun w => withListeners (listeners w ++ [(eventName, listener)]) w).

(** Drops the first listener of [eventName] that is the function [f]. *)
Fixpoint dropListener (eventName : JsVal) (f : FunctionRef)
    (ls : list (JsVal * Closure)) : list (JsVal * Closure) :=
  match ls with
  | [] => []
  | (k, c) :: ls' =>
      if JsVal_eqb k eventName && sameFunction f c
      then ls'
      else (k, c) :: dropListener eventName f ls'
  end.

(** Modelled from the spec: [geth.removeListener(eventName, listener)] of
    the absent collaborator removes the most recently added listener of that
    event that is the very function given; removal by another reference
    unregisters nothing. *)
Definition geth_removeListener (eventName : JsVal) (f : FunctionRef)
    : Js unit :=
  modify (fun w =>
    withListeners (rev (dropListener eventName f (rev (listeners w)))) w).

(** Modelled from the spec: [geth.rpc(method, params)] of the absent
    collaborator sends one request and returns a promise of its result,
    pending here with what the caller chained on it. *)
Definition geth_rpc (method : string) (params : option (list JsVal))
    (k : Continuation) : Js unit :=
  id <- fresh ;;
  modify (fun w =>
    withRpc (rpcLog w ++ [mkRpc method params]) (pending w ++ [(id, k)]) w).

Definition setInterval : Js nat :=
  id <- fresh ;;
  modify (fun w => withTimers (timeouts w) (intervals w ++ [id]) w) ;;
  ret id.

Definition setTimeout : Js unit :=
  id <- fresh ;;
  modify (fun w => withTimers (timeouts w ++ [id]) (intervals w) w).

Definition clearInterval (handle : option nat) : Js unit :=
  match handle with
  | Some id =>
      modify (fun w =>
        withTimers (timeouts w)
          (filter (fun i => negb (Nat.eqb i id)) (intervals w)) w)
  | None => ret tt
  end.

Definition dispatch (a : Action) : Js unit :=
  modify (fun w =>
    withObservers (dispatched w ++ [a]) (console w) (unhandled w) w).

Definition console_log (s : string) : Js unit :=
  modify (fun w =>
    withObservers (dispatched w) (console w ++ [s]) (unhandled w) w).

Definition unhandledRejection (e : JsError) : Js unit :=
  modify (fun w =>
    withObservers (dispatched w) (console w) (unhandled w ++ [e]) w).

(** ** GethService

    [dispatch] is the store's dispatch function; every listener and timer
    callback closes over it, and its calls are collected in [dispatched]. *)

Definition setSyncingSubscriptionId (v : JsVal) : Js unit :=
  modify (setThis (fun s =>
    mkService (peerCountInterval s) v (newHeadsSubscriptionId s))).

Definition setNewHeadsSubscriptionId (v : JsVal) : Js unit :=
  modify (setThis (fun s =>
    mkService (peerCountInterval s) (syncingSubscriptionId s) v)).

Definition setPeerCountInterval (id : nat) : Js unit :=
  modify (setThis (fun s =>
    mkService (Some id) (syncingSubscriptionId s) (newHeadsSubscriptionId s))).

(** lines 25-27 *)
Definition setConfig (config : JsVal) : Js unit :=
  geth_setConfig config.

(** lines 54-62 *)
Definition createListeners : Js unit :=
  f <- arrow StartingArrow ;; geth_on (JStr "starting") f ;;
  f <- arrow StartedArrow ;; geth_on (JStr "started") f ;;
  f <- arrow ConnectArrow ;; geth_on (JStr "connect") f ;;
  f <- arrow StoppingArrow ;; geth_on (JStr "stopping") f ;;
  f <- arrow StoppedArrow ;; geth_on (JStr "stopped") f ;;
  f <- arrow DisconnectArrow ;; geth_on (JStr "disconnect") f ;;
  f <- arrow ErrorArrow ;; geth_on (JStr "error") f.

(** lines 64-72 *)
Definition removeListeners : Js unit :=
  geth_removeListener (JStr "starting") (MethodRef M_onStarting) ;;
  geth_removeListener (JStr "started") (MethodRef M_onStarted) ;;
  geth_removeListener (JStr "connect") (MethodRef M_onConnect) ;;
  geth_removeListener (JStr "stopping") (MethodRef M_onStopping) ;;
  geth_removeListener (JStr "stopped") (MethodRef M_onStopped) ;;
  geth_removeListener (JStr "disconnect") (MethodRef M_onDisconnect) ;;
  geth_removeListener (JStr "error") (MethodRef M_onError).

(** lines 29-43 *)
Definition start (config : JsVal) : Js unit :=
  setConfig config ;;
  geth_start ;;
  newConfig <- geth_getConfig ;;
  destructurable newConfig ;;
  let network := getProp newConfig "network" in
  let syncMode := getProp newConfig "syncMode" in
  dispatch (Actions.updateNetwork network) ;;
  dispatch (Actions.updateSyncMode syncMode) ;;
  id <- setInterval ;;
  setPeerCountInterval id ;;
  createListeners.

(** lines 82-94 *)
Definition onNewHeadsSubscriptionResult (result : JsVal) : Js unit :=
  destructurable result ;;
  let subscriptionResult := getProp result "result" in
  if negb (truthy subscriptionResult) then ret tt
  else
    destructurable subscriptionResult ;;
    let hexBlockNumber := getProp subscriptionResult "number" in
    let hexTimestamp := getProp subscriptionResult "timestamp" in
    let blockNumber := Number (toNumberString hexBlockNumber) in
    let timestamp := Number (toNumberString hexTimestamp) in
    dispatch (Actions.newBlock blockNumber timestamp).

(** lines 128-138; the argument the callers pass is not a parameter. *)
Definition unsubscribeNewHeadsSubscription : Js unit :=
  id <- get (fun w => newHeadsSubscriptionId (this w)) ;;
  if negb (truthy id) then ret tt
  else
    geth_rpc "eth_unsubscribe" (Some [id]) Dropped ;;
    geth_removeListener id (MethodRef M_onNewHeadsSubscriptionResult) ;;
    setNewHeadsSubscriptionId JNull.

(** lines 140-151 *)
Definition unsubscribeSyncingSubscription : Js unit :=
  id <- get (fun w => syncingSubscriptionId (this w)) ;;
  if negb (truthy id) then ret tt
  else
    geth_rpc "eth_unsubscribe" (Some [id]) Dropped ;;
    geth_removeListener id (MethodRef M_onSyncingSubscriptionResult) ;;
    setSyncingSubscriptionId JNull.

(** lines 204-211: the body has no [await]; it runs to its end within the
    call. *)
Definition startNewHeadsSubscription : Js unit :=
  geth_rpc "eth_subscribe" (Some [JStr "newHeads"]) AfterSubscribeNewHeads.

(** lines 213-214, up to the [await] *)
Definition startSyncingSubscription : Js unit :=
  geth_rpc "eth_subscribe" (Some [JStr "syncing"]) AfterSubscribeSyncing.

(** lines 96-126 *)
Definition onSyncingSubscriptionResult (result : JsVal) : Js unit :=
  match result with
  | JBool false =>
      startNewHeadsSubscription ;;
      unsubscribeSyncingSubscription
  | JBool true => ret tt
  | _ =>
      destructurable result ;;
      let status := getProp result "status" in
      destructurable status ;;
      let startingBlock := getProp status "StartingBlock" in
      let currentBlock := getProp status "CurrentBlock" in
      let highestBlock := getProp status "HighestBlock" in
      let knownStates := getProp status "KnownStates" in
      let pulledStates := getProp status "PulledStates" in
      dispatch (Actions.updateSyncing startingBlock currentBlock highestBlock
                  knownStates pulledStates)
  end.

(** lines 45-52 *)
Definition stop : Js unit :=
  geth_stop ;;
  handle <- get (fun w => peerCountInterval (this w)) ;;
  clearInterval handle ;;
  unsubscribeSyncingSubscription ;;
  unsubscribeNewHeadsSubscription ;;
  removeListeners ;;
  console_log "∆∆∆ done stop".

(** lines 153-159, 188-202 *)
Definition onStarting : Js unit := dispatch Actions.gethStarting.
Definition onStarted : Js unit := dispatch Actions.gethStarted.
Definition onDisconnect : Js unit := dispatch Actions.gethDisconnected.
Definition onStopping : Js unit := dispatch Actions.gethStopping.
Definition onStopped : Js unit := dispatch Actions.gethStopped.
Definition onError (error : JsVal) : Js unit :=
  dispatch (Actions.gethError error).

(** lines 164-165, up to the [await] *)
Definition startSubscriptions : Js unit :=
  geth_rpc "eth_syncing" None AfterEthSyncing.

(** lines 174-175 *)
Definition setLastBlock : Js unit :=
  geth_rpc "eth_getBlockByNumber" (Some [JStr "latest"; JBool false])
    AfterGetBlock.

(** lines 161-186: the two local functions run when the timeout fires. *)
Definition onConnect : Js unit :=
  dispatch Actions.gethConnected ;;
  setTimeout.

(** lines 182-185, the callback of the timeout *)
Definition connectTimeoutCallback : Js unit :=
  setLastBlock ;;
  startSubscriptions.

(** lines 221-222, up to the [await] *)
Definition updatePeerCount : Js unit :=
  geth_rpc "net_peerCount" None AfterPeerCount.

(** The rest of each function once its promise has been fulfilled with
    [value]. *)
Definition resume (k : Continuation) (value : JsVal) : Js unit :=
  match k with
  | AfterEthSyncing =>
      match value with
      | JBool false => startNewHeadsSubscription
      | _ => startSyncingSubscription
      end
  | AfterGetBlock =>
      destructurable value ;;
      let hexBlockNumber := getProp value "number" in
      let hexTimestamp := getProp value "timestamp" in
      let blockNumber := Number (toNumberString hexBlockNumber) in
      let timestamp := Number (toNumberString hexTimestamp) in
      dispatch (Actions.newBlock blockNumber timestamp)
  | AfterSubscribeNewHeads =>
      setNewHeadsSubscriptionId value ;;
      f <- arrow NewHeadsArrow ;;
      geth_on value f
  | AfterSubscribeSyncing =>
      setSyncingSubscriptionId value ;;
      f <- arrow SyncingArrow ;;
      geth_on value f
  | AfterPeerCount =>
      let peerCount := toNumberString value in
      dispatch (Actions.updatePeerCount peerCount)
  | Dropped => ret tt
  end.

(** Calling a listener with the emitted argument. *)
Definition call (f : Closure) (arg : JsVal) : Js unit :=
  match fn_site f with
  | StartingArrow => onStarting
  | StartedArrow => onStarted
  | ConnectArrow => onConnect
  | StoppingArrow => onStopping
  | StoppedArrow => onStopped
  | DisconnectArrow => onDisconnect
  | ErrorArrow => onError arg
  | NewHeadsArrow => onNewHeadsSubscriptionResult arg
  | SyncingArrow => onSyncingSubscriptionResult arg
  end.

(** ** The event loop

    Handlers run to completion, one at a time; between two of them the
    environment chooses what happens next. *)

Fixpoint callAll (fs : list Closure) (arg : JsVal) : Js unit :=
  match fs with
  | [] => ret tt
  | f :: fs' => call f arg ;; callAll fs' arg
  end.

Definition listenersOf (eventName : JsVal) (ls : list (JsVal * Closure))
    : list Closure :=
  map snd (filter (fun kc => JsVal_eqb (fst kc) eventName) ls).

(** Modelled from the spec: when the absent collaborator emits
    [eventName] with [arg], the listeners registered at that moment are
    called in the order of their registration; a listener that throws ends
    the emission. *)
Definition emit (eventName arg : JsVal) : Js unit :=
  fs <- get (fun w => listenersOf eventName (listeners w)) ;;
  callAll fs arg.

Fixpoint takePending (id : nat) (ps : list (nat * Continuation))
    : option (Continuation * list (nat * Continuation)) :=
  match ps with
  | [] => None
  | (i, k) :: ps' =>
      if Nat.eqb i id then Some (k, ps')
      else
        match takePending id ps' with
        | Some (k', rest) => Some (k', (i, k) :: rest)
        | None => None
        end
  end.

(** A continuation that throws rejects a promise nobody observes. *)
Definition runDetached (m : Js unit) : Js unit :=
  fun w =>
    match m w with
    | (Normal _, w') => (Normal tt, w')
    | (Throw e, w') => unhandledRejection e w'
    end.

(** The promise [id] is fulfilled with [value]. *)
Definition fulfil (id : nat) (value : JsVal) : Js unit :=
  fun w =>
    match takePending id (pending w) with
    | Some (k, rest) =>
        runDetached (resume k value) (withRpc (rpcLog w) rest w)
    | None => (Normal tt, w)
    end.

(** The promise [id] is rejected: no function of the service chains a
    rejection handler, so the rejection goes unobserved. *)
Definition reject (id : nat) (reason : JsVal) : Js unit :=
  fun w =>
    match takePending id (pending w) with
    | Some (_, rest) =>
        unhandledRejection (Rejection reason) (withRpc (rpcLog w) rest w)
    | None => (Normal tt, w)
    end.

Definition member (id : nat) (ids : list nat) : bool :=
  existsb (Nat.eqb id) ids.

Definition fireTimeout (id : nat) : Js unit :=
  fun w =>
    if member id (timeouts w) then
      connectTimeoutCallback
        (withTimers (filter (fun i => negb (Nat.eqb i id)) (timeouts w))
           (intervals w) w)
    else (Normal tt, w).

(** line 39, the callback of the interval *)
Definition tick (id : nat) : Js unit :=
  fun w =>
    if member id (intervals w) then updatePeerCount w else (Normal tt, w).

Inductive Input : Type :=
| CallStart (config : JsVal)
| CallStop
| Emit (eventName arg : JsVal)
| Fulfil (promise : nat) (value : JsVal)
| Reject (promise : nat) (reason : JsVal)
| FireTimeout (timer : nat)
| Tick (timer : nat).

Definition step (i : Input) : Js unit :=
  match i with
  | CallStart config => start config
  | CallStop => stop
  | Emit eventName arg => emit eventName arg
  | Fulfil promise value => fulfil promise value
  | Reject promise reason => reject promise reason
  | FireTimeout timer => fireTimeout timer
  | Tick timer => tick timer
  end.

(** The world after an input; an exception goes to whoever made the call. *)
Definition after (i : Input) (w : World) : World := snd (step i w).

Definition run (inputs : list Input) (w : World) : World :=
  fold_left (fun w i => after i w) inputs w.

Definition reachable (w : World) : Prop :=
  exists inputs, run inputs initialWorld = w.

(** ** A session, step by step *)

Definition mainnet : JsVal :=
  JObj [("network", JStr "main"); ("syncMode", JStr "light")].

Definition header : JsVal :=
  JObj [("subscription", JStr "0xcd0c");
        ("result", JObj [("number", JStr "0x1b4"); ("timestamp", JStr "0x5")])].

Definition progress : JsVal :=
  JObj [("syncing", JBool true);
        ("status", JObj [("StartingBlock", JNum 100); ("CurrentBlock", JNum 150);
                         ("HighestBlock", JNum 200); ("KnownStates", JNum 10);
                         ("PulledStates", JNum 5)])].

Definition connected : World :=
  run [CallStart mainnet; Emit (JStr "connect") JUndefined; FireTimeout 8]
      initialWorld.

(** Every character is a hexadecimal digit. *)
Fixpoint allHexDigits (s : string) : bool :=
  match s with
  | EmptyString => true
  | String ch s' =>
      match HexString.ascii_to_digit ch with
      | Some _ => allHexDigits s'
      | None => false
      end
  end.

(** A progress event whose counters are hexadecimal strings. *)
Definition hexProgress : JsVal :=
  JObj [("syncing", JBool true);
        ("status", JObj [("StartingBlock", JStr "0x64");
                         ("CurrentBlock", JStr "0x96");
                         ("HighestBlock", JStr "0xc8");
                         ("KnownStates", JStr "0xa");
                         ("PulledStates", JStr "0x5")])].

(** The update of the sync feed, each counter passed through
    [toNumberString]. *)
Definition normalizedSyncProgress (status : JsVal) : Action :=
  Actions.updateSyncing
    (toNumberString (getProp status "StartingBlock"))
    (toNumberString (getProp status "CurrentBlock"))
    (toNumberString (getProp status "HighestBlock"))
    (toNumberString (getProp status "KnownStates"))
    (toNumberString (getProp status "PulledStates")).

(** The update of the sync feed, each counter as it was delivered. *)
Definition deliveredSyncProgress (status : JsVal) : Action :=
  Actions.updateSyncing
    (getProp status "StartingBlock")
    (getProp status "CurrentBlock")
    (getProp status "HighestBlock")
    (getProp status "KnownStates")
    (getProp status "PulledStates").

Definition emitted (a : Action) (w : World) : World :=
  withObservers (dispatched w ++ [a]) (console w) (unhandled w) w.

(** The world once an [eth_unsubscribe] for [id] has been sent. *)
Definition unsubscribed (id : JsVal) (w : World) : World :=
  withRpc (rpcLog w ++ [mkRpc "eth_unsubscribe" (Some [id])])
    (pending w ++ [(nextId w, Dropped)])
    (withNextId (S (nextId w)) w).

(** The world once [stop] has stopped the process and cleared the
    interval (lines 46-47). *)
Definition halted (w : World) : World :=
  snd (clearInterval (peerCountInterval (this w)) (snd (geth_stop w))).

(** The session with the header feed subscribed, and with the sync feed
    subscribed. *)
Definition headFeedActive : World :=
  run [Fulfil 10 (JBool false); Fulfil 11 (JStr "0xcd0c")] connected.

Definition syncFeedActive : World :=
  run [Fulfil 10 (JBool true); Fulfil 11 (JStr "0x9c")] connected.

(** Every pending promise was created before the next identity. *)
Definition promisesFresh (w : World) : Prop :=
  Forall (fun p => fst p < nextId w) (pending w).

(** [value === false] *)
Definition isFalse (value : JsVal) : bool :=
  match value with
  | JBool false => true
  | _ => false
  end.

(** The world once [geth.rpc(method, params)] has been called and [k]
    chained on its promise. *)
Definition sent (method : string) (params : option (list JsVal))
    (k : Continuation) (w : World) : World :=
  withRpc (rpcLog w ++ [mkRpc method params]) (pending w ++ [(nextId w, k)])
    (withNextId (S (nextId w)) w).

(** What it would mean for a failure between two worlds to be caught and
    reported: no rejection is left unobserved, and an update or a console
    line tells of it. *)
Definition caughtAndReported (before after : World) : Prop :=
  unhandled after = unhandled before
  /\ (dispatched after <> dispatched before
      \/ console after <> console before).

(** ** Measures of a world, for the feed invariant *)

Definition isConnected (a : Action) : bool :=
  match a with
  | Actions.gethConnected => true
  | _ => false
  end.

(** How many times [onConnect] has run. *)
Definition connects (w : World) : nat :=
  List.length (filter isConnected (dispatched w)).

Definition isDetection (p : nat * Continuation) : bool :=
  match snd p with
  | AfterEthSyncing | AfterSubscribeSyncing => true
  | _ => false
  end.

Definition isHeadRequest (p : nat * Continuation) : bool :=
  match snd p with
  | AfterSubscribeNewHeads => true
  | _ => false
  end.

Definition isSyncListener (l : JsVal * Closure) : bool :=
  match fn_site (snd l) with
  | SyncingArrow => true
  | _ => false
  end.

(** Detections under way: a connect timeout not yet fired, an [eth_syncing]
    query not yet answered, a sync subscription not yet confirmed. *)
Definition detections (w : World) : nat :=
  List.length (timeouts w) + List.length (filter isDetection (pending w)).

(** Header subscriptions asked for and not yet confirmed. *)
Definition headRequests (w : World) : nat :=
  List.length (filter isHeadRequest (pending w)).

Definition syncListeners (w : World) : nat :=
  List.length (filter isSyncListener (listeners w)).

Definition syncActive (w : World) : bool :=
  truthy (syncingSubscriptionId (this w)).

Definition headActive (w : World) : bool :=
  truthy (newHeadsSubscriptionId (this w)).

(** No feed is subscribed, asked for, or listened to. *)
Definition feedless (w : World) : Prop :=
  headRequests w = 0 /\ syncListeners w = 0
  /\ syncActive w = false /\ headActive w = false.

(** The invariant of a service whose [onConnect] has run at most once. *)
Definition Exclusive (w : World) : Prop :=
  connects w <= 1 ->
  (connects w = 0 -> detections w = 0 /\ feedless w)
  /\ detections w <= 1
  /\ (detections w = 1 -> feedless w)
  /\ (syncActive w = true -> headRequests w = 0 /\ headActive w = false).

(** Two connects, the node syncing at the first and synced at the second. *)
Definition reconnected : World :=
  run [Fulfil 10 (JBool true); Fulfil 11 (JStr "0x9c");
       Emit (JStr "disconnect") JUndefined;
       Emit (JStr "connect") JUndefined; FireTimeout 13;
       Fulfil 15 (JBool false); Fulfil 16 (JStr "0xcd0c")] connected.

(** [w'] has as many connects as [w] and nothing more under way. *)
Definition quiet (w w' : World) : Prop :=
  connects w' = connects w
  /\ detections w' <= detections w
  /\ headRequests w' <= headRequests w
  /\ syncListeners w' = syncListeners w
  /\ (syncActive w' = true -> syncActive w = true)
  /\ (headActive w' = true -> headActive w = true).

(** A computation that leaves every world it runs in quiet. *)
Definition Quiet {A : Type} (m : Js A) : Prop :=
  forall w, quiet w (snd (m w)).

(** A computation that keeps a property of the world. *)
Definition Keeps {A : Type} (I : World -> Prop) (m : Js A) : Prop :=
  forall w, I w -> I (snd (m w)).

(** ** Worlds and values used to state what [start] and the events do *)

(** The world once an arrow function of [site] has been evaluated and
    registered for [eventName]. *)
Definition registered (eventName : JsVal) (site : ArrowSite) (w : World)
    : World :=
  withListeners (listeners w ++ [(eventName, mkClosure (nextId w) site)])
    (withNextId (S (nextId w)) w).

(** The seven listeners of lines 55-61, the first of identity [n]. *)
Definition lifecycleListeners (n : nat) : list (JsVal * Closure) :=
  [(JStr "starting", mkClosure n StartingArrow);
   (JStr "started", mkClosure (1 + n) StartedArrow);
   (JStr "connect", mkClosure (2 + n) ConnectArrow);
   (JStr "stopping", mkClosure (3 + n) StoppingArrow);
   (JStr "stopped", mkClosure (4 + n) StoppedArrow);
   (JStr "disconnect", mkClosure (5 + n) DisconnectArrow);
   (JStr "error", mkClosure (6 + n) ErrorArrow)].

(** The world once [start config] has run to its end. *)
Definition started (config : JsVal) (w : World) : World :=
  withListeners (listeners w ++ lifecycleListeners (S (nextId w)))
    (withNextId (8 + nextId w)
       (setThis (fun s => mkService (Some (nextId w))
                            (syncingSubscriptionId s)
                            (newHeadsSubscriptionId s))
          (withTimers (timeouts w) (intervals w ++ [nextId w])
             (withObservers
                (dispatched w ++
                 [Actions.updateNetwork (getProp config "network");
                  Actions.updateSyncMode (getProp config "syncMode")])
                (console w) (unhandled w)
                (withGeth config
                   (gethCalls w ++ [GethSetConfig config; GethStart]) w))))).

(** The update each lifecycle event is turned into (lines 153-159,
    188-202). *)
Definition lifecycleUpdate (eventName : string) (arg : JsVal)
    : option Action :=
  if String.eqb eventName "starting" then Some Actions.gethStarting
  else if String.eqb eventName "started" then Some Actions.gethStarted
  else if String.eqb eventName "connect" then Some Actions.gethConnected
  else if String.eqb eventName "stopping" then Some Actions.gethStopping
  else if String.eqb eventName "stopped" then Some Actions.gethStopped
  else if String.eqb eventName "disconnect" then Some Actions.gethDisconnected
  else if String.eqb eventName "error" then Some (Actions.gethError arg)
  else None.

(** ** The effects the service has on the world *)

(** The calls the service sends: lines 132 and 145, 165, 175, 205, 214,
    222. *)
Definition serviceCall (c : RpcCall) : bool :=
  match c with
  | mkRpc method params =>
      if String.eqb method "eth_syncing" then
        match params with None => true | _ => false end
      else if String.eqb method "net_peerCount" then
        match params with None => true | _ => false end
      else if String.eqb method "eth_getBlockByNumber" then
        match params with
        | Some [JStr "latest"; JBool false] => true
        | _ => false
        end
      else if String.eqb method "eth_subscribe" then
        match params with
        | Some [JStr feed] =>
            String.eqb feed "newHeads" || String.eqb feed "syncing"
        | _ => false
        end
      else if String.eqb method "eth_unsubscribe" then
        match params with Some [_] => true | _ => false end
      else false
  end.

(** One effect of one statement of the service. *)
Inductive Effect : World -> World -> Prop :=
| E_setConfig (config : JsVal) (w : World) :
    Effect w (withGeth config (gethCalls w ++ [GethSetConfig config]) w)
| E_start (w : World) :
    Effect w (withGeth (gethConfig w) (gethCalls w ++ [GethStart]) w)
| E_stop (w : World) :
    Effect w (withGeth (gethConfig w) (gethCalls w ++ [GethStop]) w)
| E_fresh (w : World) :
    Effect w (withNextId (S (nextId w)) w)
| E_on (eventName : JsVal) (f : Closure) (w : World) :
    Effect w (withListeners (listeners w ++ [(eventName, f)]) w)
| E_rpc (method : string) (params : option (list JsVal)) (id : nat)
    (k : Continuation) (w : World) :
    serviceCall (mkRpc method params) = true ->
    Effect w (withRpc (rpcLog w ++ [mkRpc method params])
                (pending w ++ [(id, k)]) w)
| E_settle (id : nat) (k : Continuation) (rest : list (nat * Continuation))
    (w : World) :
    takePending id (pending w) = Some (k, rest) ->
    Effect w (withRpc (rpcLog w) rest w)
| E_setInterval (id : nat) (w : World) :
    Effect w (withTimers (timeouts w) (intervals w ++ [id]) w)
| E_setTimeout (id : nat) (w : World) :
    Effect w (withTimers (timeouts w ++ [id]) (intervals w) w)
| E_clearInterval (id : nat) (w : World) :
    Effect w (withTimers (timeouts w)
                (filter (fun i => negb (Nat.eqb i id)) (intervals w)) w)
| E_fireTimeout (id : nat) (w : World) :
    Effect w (withTimers (filter (fun i => negb (Nat.eqb i id)) (timeouts w))
                (intervals w) w)
| E_dispatch (a : Action) (w : World) :
    Effect w (withObservers (dispatched w ++ [a]) (console w) (unhandled w) w)
| E_log (s : string) (w : World) :
    Effect w (withObservers (dispatched w) (console w ++ [s]) (unhandled w) w)
| E_unhandled (e : JsError) (w : World) :
    Effect w (withObservers (dispatched w) (console w) (unhandled w ++ [e]) w)
| E_this (f : Service -> Service) (w : World) :
    Effect w (setThis f w).

(** A finite sequence of effects. *)
Inductive Effects : World -> World -> Prop :=
| Effects_none (w : World) : Effects w w
| Effects_more (w v u : World) : Effects w v -> Effect v u -> Effects w u.

(** The [eth_unsubscribe] calls [stop] sends in a world: one for each
    feed whose handle is truthy, the sync feed first. *)
Definition unsubscribeCalls (w : World) : list RpcCall :=
  (if truthy (syncingSubscriptionId (this w))
   then [mkRpc "eth_unsubscribe" (Some [syncingSubscriptionId (this w)])]
   else [])
  ++ (if truthy (newHeadsSubscriptionId (this w))
      then [mkRpc "eth_unsubscribe" (Some [newHeadsSubscriptionId (this w)])]
      else []).

(** The handle [stop] leaves where [handle] was. *)
Definition released (handle : JsVal) : JsVal :=
  if truthy handle then JNull else handle.

(** The intervals that are still set once the interval of [handle] has been
    cleared. *)
Definition withoutInterval (handle : option nat) (ids : list nat) : list nat :=
  match handle with
  | Some id => filter (fun i => negb (Nat.eqb i id)) ids
  | None => ids
  end.

(** The world once each unsubscribe helper has run. *)
Definition syncReleased (w : World) : World :=
  if truthy (syncingSubscriptionId (this w))
  then snd (setSyncingSubscriptionId JNull
              (unsubscribed (syncingSubscriptionId (this w)) w))
  else w.

Definition newHeadsReleased (w : World) : World :=
  if truthy (newHeadsSubscriptionId (this w))
  then snd (setNewHeadsSubscriptionId JNull
              (unsubscribed (newHeadsSubscriptionId (this w)) w))
  else w.

(** A block header as the node sends it: number and timestamp in
    hexadecimal. *)
Definition wireHeader (number timestamp : N) : JsVal :=
  JObj [("number", JStr (hexEncode number));
        ("timestamp", JStr (hexEncode timestamp))].

(** The update for a block, its number and timestamp in decimal. *)
Definition blockUpdate (number timestamp : N) : Action :=
  Actions.newBlock (Number (JStr (decimalString number)))
    (Number (JStr (decimalString timestamp))).

(** * VersionListItem

    The release list item of
    [src/components/Nodes/ClientConfig/VersionListItem.jsx]: the display
    name of a release, the download it starts when clicked, and the icon
    and label it renders.  [this.state] is a record; [setState] merges into
    it at once, which is what the component observes between two of its
    handlers.  The [client] of the props and the two callbacks are recorded
    as calls. *)

Module VersionListItem.

(** [fileName.split('-')]: the pieces between the dashes, at least one. *)
Fixpoint splitDash (s : string) : list string :=
  match s with
  | EmptyString => [EmptyString]
  | String c s' =>
      if Ascii.eqb c "-"%char then EmptyString :: splitDash s'
      else
        match splitDash s' with
        | piece :: pieces => String c piece :: pieces
        | [] => [String c EmptyString]
        end
  end.

(** [part === literal], for an element of the array that may be missing. *)
Definition isLiteral (part : option string) (literal : string) : bool :=
  match part with
  | Some s => String.eqb s literal
  | None => false
  end.

(** A part inside a template literal: [undefined] when it is missing. *)
Definition interpolate (part : option string) : string :=
  match part with
  | Some s => s
  | None => "undefined"
  end.

(** lines 27-40 *)
Definition releaseDisplayName (release : JsVal) : Completion string :=
  if nullish release then Throw TypeError
  else
    match getProp release "fileName" with
    | JStr fileName =>
        let nameParts := splitDash fileName in
        let name := nth_error nameParts 0 in
        let os := nth_error nameParts 1 in
        let arch := nth_error nameParts 2 in
        let arch :=
          if isLiteral os "windows"
          then Some (if isLiteral arch "386" then "32 Bit" else "64 Bit")
          else arch in
        let version := nth_error nameParts 3 in
        let displayName :=
          (interpolate name ++ " " ++ interpolate os ++ " "
           ++ interpolate version ++ " (" ++ interpolate arch ++ ")")%string in
        Normal displayName
    | _ => Throw TypeError
    end.

(** lines 20-23 *)
Record State : Type := mkState {
  isDownloading : bool;
  downloadProgress : JsVal
}.

Definition initialState : State := mkState false (JNum 0).

(** What the component asks of its props and of the console. *)
Inductive Call : Type :=
| ConsoleLog (args : list JsVal)
| ClientDownload (release : JsVal)
| HandleDownloadError (error : JsVal)
| HandleReleaseDownloaded (release : JsVal).

(** The component: its state, the calls it has made, and the releases
    whose download it is awaiting. *)
Record Component : Type := mkComponent {
  state : State;
  calls : list Call;
  awaited : list JsVal
}.

Definition mounted : Component := mkComponent initialState [] [].

(** lines 42-55, up to the [await] *)
Definition downloadRelease (release : JsVal) (c : Component) : Component :=
  if isDownloading (state c) then c
  else
    mkComponent (mkState true (downloadProgress (state c)))
      (calls c ++ [ConsoleLog [JStr "download release"];
                   ClientDownload release])
      (awaited c ++ [release]).

(** lines 52-55, the progress callback handed to [client.download] *)
Definition onProgress (progress : JsVal) (c : Component) : Component :=
  mkComponent (mkState (isDownloading (state c)) progress)
    (calls c ++ [ConsoleLog [JStr "download update"; progress]])
    (awaited c).

Fixpoint takeAwaited (i : nat) (rs : list JsVal)
    : option (JsVal * list JsVal) :=
  match rs, i with
  | [], _ => None
  | r :: rs', O => Some (r, rs')
  | r :: rs', S i' =>
      match takeAwaited i' rs' with
      | Some (x, rest) => Some (x, r :: rest)
      | None => None
      end
  end.

(** lines 59-60, after the download of the [i]th awaited release is done *)
Definition downloaded (i : nat) (c : Component) : Component :=
  match takeAwaited i (awaited c) with
  | Some (release, rest) =>
      mkComponent (mkState false (JNum 0))
        (calls c ++ [HandleReleaseDownloaded release]) rest
  | None => c
  end.

(** lines 56-60, after the download of the [i]th awaited release has
    failed with [error] *)
Definition downloadFailed (i : nat) (error : JsVal) (c : Component)
    : Component :=
  match takeAwaited i (awaited c) with
  | Some (release, rest) =>
      mkComponent (mkState false (JNum 0))
        (calls c ++ [HandleDownloadError error;
                     HandleReleaseDownloaded release]) rest
  | None => c
  end.

(** lines 63-70 *)
Definition handleReleaseSelected (release : JsVal) (c : Component)
    : Completion unit * Component :=
  if nullish release then (Throw TypeError, c)
  else if negb (truthy (getProp release "remote")) then (Normal tt, c)
  else (Normal tt, downloadRelease release c).

(** line 25 *)
Definition isSelectedRelease (release : JsVal) : bool := false.

Inductive Icon : Type :=
| BlankIconPlaceholder
| Spinner (value : JsVal)
| CloudDownloadIcon
| CheckBoxIcon
| HiddenCheckBoxIcon.

(** lines 72-87 *)
Definition renderIcon (release : JsVal) (c : Component) : Completion Icon :=
  if isDownloading (state c)
  then Normal (Spinner (downloadProgress (state c)))
  else if nullish release then Throw TypeError
  else if truthy (getProp release "remote") then Normal CloudDownloadIcon
  else if isSelectedRelease release then Normal CheckBoxIcon
  else if negb (truthy (getProp release "remote"))
       then Normal HiddenCheckBoxIcon
       else Normal BlankIconPlaceholder.

(** lines 93-104, the label of [render] *)
Definition actionLabel (release : JsVal) (c : Component)
    : Completion string :=
  if nullish release then Throw TypeError
  else if negb (truthy (getProp release "remote")) then
    if isSelectedRelease release then Normal "Selected" else Normal "Use"
  else
    if isDownloading (state c) then Normal "Downloading"
    else Normal "Download".

(** What can happen to a mounted item. *)
Inductive Event : Type :=
| Click (release : JsVal)
| Progress (progress : JsVal)
| Done (i : nat)
| Failed (i : nat) (error : JsVal).

Definition handle (e : Event) (c : Component) : Component :=
  match e with
  | Click release => snd (handleReleaseSelected release c)
  | Progress progress => onProgress progress c
  | Done i => downloaded i c
  | Failed i error => downloadFailed i error c
  end.

Definition play (events : list Event) (c : Component) : Component :=
  fold_left (fun c e => handle e c) events c.

(** No dash in a part of a file name. *)
Fixpoint dashFree (s : string) : bool :=
  match s with
  | EmptyString => true
  | String c s' => negb (Ascii.eqb c "-"%char) && dashFree s'
  end.

(** The architecture as it is shown: spelled out for Windows. *)
Definition shownArch (os arch : string) : string :=
  if String.eqb os "windows"
  then (if String.eqb arch "386" then "32 Bit" else "64 Bit")
  else arch.

(** At most one download is awaited, and [isDownloading] says whether one
    is. *)
Definition oneAtATime (c : Component) : Prop :=
  List.length (awaited c) <= 1
  /\ isDownloading (state c)
     = match awaited c with [] => false | _ :: _ => true end.

(** The calls of the component to [client.download]. *)
Definition isClientDownload (call : Call) : bool :=
  match call with
  | ClientDownload _ => true
  | _ => false
  end.

(** The calls of the component to [handleReleaseDownloaded]. *)
Definition isReleaseDownloaded (call : Call) : bool :=
  match call with
  | HandleReleaseDownloaded _ => true
  | _ => false
  end.

End VersionListItem.

(** * Terminal

    The log viewer of [src/components/Nodes/Terminal.jsx].  The component
    registers its own [addNewLog] function, one function object per
    instance, for the [log] event of [geth], and removes that same function
    when it unmounts.  The emitter is the one of the service, seen from one
    instance: a listener is the identity of a function, [self] that of this
    instance's [addNewLog]; what the functions of others do is not the
    component's business. *)

Module Terminal.

Record World : Type := mkWorld {
  self : nat;
  logs : list JsVal;
  listeners : list (string * nat)
}.

(** line 8 *)
Definition constructed (self : nat) (others : list (string * nat)) : World :=
  mkWorld self [] others.

(** lines 28-33; the events of [geth] arrive outside of React's own
    handlers, where [setState] takes effect at once. *)
Definition addNewLog (newLog : JsVal) (w : World) : World :=
  mkWorld (self w) (logs w ++ [newLog]) (listeners w).

(** Modelled from the spec: [geth.on] of the absent collaborator appends
    the listener. *)
Definition geth_on (eventName : string) (f : nat) (w : World) : World :=
  mkWorld (self w) (logs w) (listeners w ++ [(eventName, f)]).

Fixpoint dropFirst (eventName : string) (f : nat)
    (ls : list (string * nat)) : list (string * nat) :=
  match ls with
  | [] => []
  | (k, g) :: ls' =>
      if String.eqb k eventName && Nat.eqb g f then ls'
      else (k, g) :: dropFirst eventName f ls'
  end.

(** Modelled from the spec: [geth.removeListener] of the absent
    collaborator removes the most recently added listener of the event
    that is the very function given. *)
Definition geth_removeListener (eventName : string) (f : nat) (w : World)
    : World :=
  mkWorld (self w) (logs w) (rev (dropFirst eventName f (rev (listeners w)))).

(** lines 35-37 *)
Definition subscribeLogs (w : World) : World :=
  geth_on "log" (self w) w.

(** lines 39-41 *)
Definition unsubscribeLogs (w : World) : World :=
  geth_removeListener "log" (self w) w.

(** lines 16-18 *)
Definition componentDidMount (w : World) : World := subscribeLogs w.

(** lines 24-26 *)
Definition componentWillUnmount (w : World) : World := unsubscribeLogs w.

(** Calling the listeners of an emission one after the other: this
    instance's function adds the log, the others leave the component
    alone. *)
Fixpoint callAll (fs : list nat) (arg : JsVal) (w : World) : World :=
  match fs with
  | [] => w
  | f :: fs' =>
      callAll fs' arg (if Nat.eqb f (self w) then addNewLog arg w else w)
  end.

(** Modelled from the spec: an emission of the absent collaborator calls
    the listeners registered for the event at that moment, in order. *)
Definition emit (eventName : string) (arg : JsVal) (w : World) : World :=
  callAll
    (map snd (filter (fun l => String.eqb (fst l) eventName) (listeners w)))
    arg w.

Definition emitLogs (lines : list JsVal) (w : World) : World :=
  fold_left (fun w line => emit "log" line w) lines w.

(** How many times this instance listens to [log]. *)
Definition subscriptions (w : World) : nat :=
  List.length
    (filter (fun l => String.eqb (fst l) "log" && Nat.eqb (snd l) (self w))
       (listeners w)).

End Terminal.

(** * Properties *)

(** ** Sanity checks on concrete inputs *)

Example toNumberString_0xa :
  toNumberString (JStr "0xa") = JStr "10".
Proof. reflexivity. Qed.

Example toNumberString_big :
  toNumberString (JStr "0x20000000000001") = JStr "9007199254740993".
Proof. vm_compute. reflexivity. Qed.

Example toNumberString_upper :
  toNumberString (JStr "0xFF") = JStr "255".
Proof. reflexivity. Qed.

Example toNumberString_bad :
  toNumberString (JStr "0x") = JStr "NaN".
Proof. reflexivity. Qed.

Example toNumberString_plain :
  toNumberString (JStr "42") = JStr "42".
Proof. reflexivity. Qed.

Example connected_rpc :
  rpcLog connected =
  [mkRpc "eth_getBlockByNumber" (Some [JStr "latest"; JBool false]);
   mkRpc "eth_syncing" None]
  /\ pending connected = [(9, AfterGetBlock); (10, AfterEthSyncing)]
  /\ dispatched connected =
     [Actions.updateNetwork (JStr "main"); Actions.updateSyncMode (JStr "light");
      Actions.gethConnected].
Proof. vm_compute. auto. Qed.

Example scenario_B :
  dispatched
    (run [Fulfil 10 (JBool true); Fulfil 11 (JStr "0x9c");
          Emit (JStr "0x9c") progress] connected)
  = dispatched connected ++
    [Actions.updateSyncing (JNum 100) (JNum 150) (JNum 200) (JNum 10) (JNum 5)].
Proof. vm_compute. reflexivity. Qed.

Example scenario_D :
  dispatched (run [Tick 0; Fulfil 11 (JStr "0xa")] connected)
  = dispatched connected ++ [Actions.updatePeerCount (JStr "10")].
Proof. vm_compute. reflexivity. Qed.

(** ** NumericNormalizer *)

Lemma parseHexDigits_valid (s : string) :
  forall acc, allHexDigits s = true ->
  parseHexDigits s acc = Some (HexString.Raw.to_N s acc).
Proof.
  induction s as [|ch s IH]; intros acc Hs; simpl in *.
  - reflexivity.
  - destruct (HexString.ascii_to_digit ch) as [d|]; [|discriminate].
    now apply IH.
Qed.

Lemma allHexDigits_of_pos :
  forall (p : positive) (rest : string),
  allHexDigits rest = true ->
  allHexDigits (HexString.Raw.of_pos p rest) = true.
Proof.
  fix IH 1.
  intros p rest Hrest.
  do 4 (try destruct p as [p|p|]); cbn;
    try assumption; apply IH; cbn; assumption.
Qed.

Lemma parseHexDigits_of_pos (p : positive) :
  parseHexDigits (HexString.Raw.of_pos p EmptyString) 0%N = Some (Npos p).
Proof.
  rewrite parseHexDigits_valid by (now apply allHexDigits_of_pos).
  now rewrite HexString.Raw.to_N_of_pos.
Qed.

Lemma BigNumber_hexEncode (n : N) : BigNumber (hexEncode n) = Some n.
Proof.
  destruct n as [|p]; [reflexivity|].
  unfold hexEncode, HexString.of_N, HexString.of_pos, BigNumber.
  pose proof (parseHexDigits_of_pos p) as Hp.
  destruct (HexString.Raw.of_pos p EmptyString) as [|ch s]; [discriminate|exact Hp].
Qed.

Lemma isHex_hexEncode (n : N) : isHex (JStr (hexEncode n)) = true.
Proof.
  destruct n as [|p]; [reflexivity|].
  unfold hexEncode, HexString.of_N, HexString.of_pos, isHex.
  now destruct (HexString.Raw.of_pos p EmptyString).
Qed.

(** C7: for every natural [n], however large, [toNumberString] maps the
    [0x]-prefixed hexadecimal encoding of [n] to the canonical decimal string
    of [n]; and a string that does not start with [0x] is returned as it
    is. *)
Theorem toNumberString_decodes_hex (n : N) (s : string)
    (Hplain : String.prefix "0x" s = false) :
  toNumberString (JStr (hexEncode n)) = JStr (decimalString n)
  /\ toNumberString (JStr s) = JStr s.
Proof.
  split.
  - unfold toNumberString. rewrite isHex_hexEncode.
    unfold hexToNumberString. now rewrite BigNumber_hexEncode.
  - unfold toNumberString, isHex. now rewrite Hplain.
Qed.

Lemma toNumberString_decodes_hex_witness :
  String.prefix "0x" "1024" = false
  /\ toNumberString (JStr (hexEncode (2 ^ 64))) = JStr "18446744073709551616"
  /\ toNumberString (JStr "1024") = JStr "1024".
Proof.
  split; [reflexivity|].
  exact (toNumberString_decodes_hex (2 ^ 64) "1024" eq_refl).
Defined.

(** ** The header feed *)

Ltac js_unfold :=
  unfold bind, ret, throw, modify, get, dispatch, destructurable.

(** C10: a newHeads event whose [result] field is missing or falsy changes
    nothing and dispatches nothing; whenever the handler does dispatch, the
    [result] field was truthy. *)
Theorem onNewHeads_needs_result (w : World) (event : JsVal) :
  (truthy (getProp event "result") = false ->
     snd (onNewHeadsSubscriptionResult event w) = w)
  /\ (dispatched (snd (onNewHeadsSubscriptionResult event w)) <> dispatched w ->
     truthy (getProp event "result") = true).
Proof.
  assert (Hinert : truthy (getProp event "result") = false ->
                   snd (onNewHeadsSubscriptionResult event w) = w).
  { intro Hfalsy. unfold onNewHeadsSubscriptionResult. js_unfold.
    destruct (nullish event); simpl; [reflexivity|].
    now rewrite Hfalsy. }
  split; [exact Hinert|].
  intro Hchanged.
  destruct (truthy (getProp event "result")) eqn:Ht; [reflexivity|].
  rewrite (Hinert eq_refl) in Hchanged. now contradiction Hchanged.
Qed.

Lemma onNewHeads_needs_result_witness :
  snd (onNewHeadsSubscriptionResult (JObj [("subscription", JStr "0xcd0c")])
         connected) = connected
  /\ truthy (getProp header "result") = true.
Proof.
  split.
  - exact (proj1 (onNewHeads_needs_result connected
                    (JObj [("subscription", JStr "0xcd0c")])) eq_refl).
  - apply (proj2 (onNewHeads_needs_result connected header)).
    vm_compute. intro H. discriminate H.
Defined.

Example onNewHeads_dispatches_header :
  dispatched (snd (onNewHeadsSubscriptionResult header connected))
  = dispatched connected ++
    [Actions.newBlock (Number (JStr "436")) (Number (JStr "5"))].
Proof. vm_compute. reflexivity. Qed.

Example onNewHeads_null_event_throws :
  onNewHeadsSubscriptionResult JNull connected = (Throw TypeError, connected).
Proof. reflexivity. Qed.

(** ** The sync feed *)

(** C3, as stated, fails: a progress event whose counters are hexadecimal
    strings is neither sentinel, and the update dispatched for it is not the
    one with the counters normalized. *)
Lemma onSyncing_does_not_normalize :
  hexProgress <> JBool false /\ hexProgress <> JBool true
  /\ dispatched (snd (onSyncingSubscriptionResult hexProgress initialWorld))
     <> [normalizedSyncProgress (getProp hexProgress "status")].
Proof.
  split; [discriminate|]. split; [discriminate|].
  vm_compute. intro H. discriminate H.
Qed.

(** C3, amended: for an event that is neither sentinel and carries a
    [status] that can be destructured, exactly one [updateSyncing] is
    dispatched, with the five counters as they were delivered, and nothing
    else changes. *)
Theorem onSyncing_emits_progress_as_delivered (w : World) (result : JsVal)
    (Hnot_false : result <> JBool false)
    (Hnot_true : result <> JBool true)
    (Hstatus : nullish (getProp result "status") = false) :
  onSyncingSubscriptionResult result w
  = (Normal tt, emitted (deliveredSyncProgress (getProp result "status")) w).
Proof.
  unfold onSyncingSubscriptionResult.
  destruct result as [| |b|z|s|items|fields];
    try (simpl in Hstatus; discriminate Hstatus).
  js_unfold. simpl in *. rewrite Hstatus. reflexivity.
Qed.

Lemma onSyncing_emits_progress_as_delivered_witness :
  dispatched (snd (onSyncingSubscriptionResult hexProgress initialWorld))
  = [Actions.updateSyncing (JStr "0x64") (JStr "0x96") (JStr "0xc8")
       (JStr "0xa") (JStr "0x5")].
Proof.
  rewrite (onSyncing_emits_progress_as_delivered initialWorld hexProgress);
    [reflexivity | discriminate | discriminate | reflexivity].
Defined.

Example onSyncing_without_status_throws :
  onSyncingSubscriptionResult (JObj [("syncing", JBool true)]) initialWorld
  = (Throw TypeError, initialWorld).
Proof. reflexivity. Qed.

(** ** Listener identity *)

Lemma dropListener_method (eventName : JsVal) (m : Method)
    (ls : list (JsVal * Closure)) :
  dropListener eventName (MethodRef m) ls = ls.
Proof.
  induction ls as [|[k c] ls IH]; simpl; [reflexivity|].
  rewrite andb_false_r. now rewrite IH.
Qed.

Lemma withListeners_same (w : World) : withListeners (listeners w) w = w.
Proof. now destruct w. Qed.

Lemma geth_removeListener_method (eventName : JsVal) (m : Method) (w : World) :
  geth_removeListener eventName (MethodRef m) w = (Normal tt, w).
Proof.
  unfold geth_removeListener, modify.
  now rewrite dropListener_method, rev_involutive, withListeners_same.
Qed.

Lemma removeListeners_inert (w : World) : removeListeners w = (Normal tt, w).
Proof.
  unfold removeListeners, bind.
  now rewrite !geth_removeListener_method.
Qed.

(** ** Unsubscribing *)

Lemma unsubscribeSyncing_idle (w : World) :
  truthy (syncingSubscriptionId (this w)) = false ->
  unsubscribeSyncingSubscription w = (Normal tt, w).
Proof.
  intro H. unfold unsubscribeSyncingSubscription, bind, get. now rewrite H.
Qed.

Lemma unsubscribeSyncing_active (w : World) :
  truthy (syncingSubscriptionId (this w)) = true ->
  unsubscribeSyncingSubscription w
  = setSyncingSubscriptionId JNull
      (unsubscribed (syncingSubscriptionId (this w)) w).
Proof.
  intro H. cbv [unsubscribeSyncingSubscription bind get]. rewrite H.
  cbv [negb geth_rpc bind fresh modify ret].
  now rewrite geth_removeListener_method.
Qed.

Lemma unsubscribeNewHeads_idle (w : World) :
  truthy (newHeadsSubscriptionId (this w)) = false ->
  unsubscribeNewHeadsSubscription w = (Normal tt, w).
Proof.
  intro H. unfold unsubscribeNewHeadsSubscription, bind, get. now rewrite H.
Qed.

Lemma unsubscribeNewHeads_active (w : World) :
  truthy (newHeadsSubscriptionId (this w)) = true ->
  unsubscribeNewHeadsSubscription w
  = setNewHeadsSubscriptionId JNull
      (unsubscribed (newHeadsSubscriptionId (this w)) w).
Proof.
  intro H. cbv [unsubscribeNewHeadsSubscription bind get]. rewrite H.
  cbv [negb geth_rpc bind fresh modify ret].
  now rewrite geth_removeListener_method.
Qed.

(** ** Stopping *)

Lemma stop_from_halted (w : World) :
  stop w
  = (unsubscribeSyncingSubscription ;;
     unsubscribeNewHeadsSubscription ;;
     removeListeners ;;
     console_log "∆∆∆ done stop") (halted w).
Proof.
  unfold stop, halted, geth_stop, modify.
  unfold bind at 1. unfold bind at 1. unfold get at 1.
  unfold bind at 1. cbn [this withGeth snd].
  unfold clearInterval, modify.
  destruct (peerCountInterval (this w)); reflexivity.
Qed.

Lemma halted_this (w : World) : this (halted w) = this w.
Proof.
  unfold halted, geth_stop, clearInterval, modify.
  now destruct (peerCountInterval (this w)).
Qed.

Lemma halted_rpcLog (w : World) : rpcLog (halted w) = rpcLog w.
Proof.
  unfold halted, geth_stop, clearInterval, modify.
  now destruct (peerCountInterval (this w)).
Qed.

Lemma halted_listeners (w : World) : listeners (halted w) = listeners w.
Proof.
  unfold halted, geth_stop, clearInterval, modify.
  now destruct (peerCountInterval (this w)).
Qed.

Lemma stop_outcome (w : World) :
  exists w', stop w = (Normal tt, w')
    /\ truthy (syncingSubscriptionId (this w')) = false
    /\ truthy (newHeadsSubscriptionId (this w')) = false
    /\ listeners w' = listeners w.
Proof.
  rewrite <- (halted_listeners w).
  rewrite stop_from_halted. unfold bind at 1.
  destruct (truthy (syncingSubscriptionId (this (halted w)))) eqn:Hs;
    [rewrite unsubscribeSyncing_active by assumption
    |rewrite unsubscribeSyncing_idle by assumption];
    cbv [setSyncingSubscriptionId modify]; unfold bind at 1;
    match goal with
    | |- context [unsubscribeNewHeadsSubscription ?x] =>
        destruct (truthy (newHeadsSubscriptionId (this x))) eqn:Hn;
        [rewrite unsubscribeNewHeads_active by assumption
        |rewrite unsubscribeNewHeads_idle by assumption]
    end;
    cbv [setNewHeadsSubscriptionId modify]; unfold bind;
    rewrite removeListeners_inert; eexists; (split; [reflexivity|]);
    simpl in *; auto.
Qed.

Lemma stop_completes (w : World) : fst (stop w) = Normal tt.
Proof. destruct (stop_outcome w) as (w' & E & _). now rewrite E. Qed.

Lemma stop_clears_handles (w : World) :
  truthy (syncingSubscriptionId (this (snd (stop w)))) = false
  /\ truthy (newHeadsSubscriptionId (this (snd (stop w)))) = false.
Proof. destruct (stop_outcome w) as (w' & E & H). now rewrite E. Qed.

Lemma stop_idle_sends_nothing (w : World) :
  truthy (syncingSubscriptionId (this w)) = false ->
  truthy (newHeadsSubscriptionId (this w)) = false ->
  rpcLog (snd (stop w)) = rpcLog w /\ this (snd (stop w)) = this w
  /\ listeners (snd (stop w)) = listeners w.
Proof.
  intros Hs Hn. rewrite stop_from_halted. unfold bind.
  rewrite unsubscribeSyncing_idle by (now rewrite halted_this).
  rewrite unsubscribeNewHeads_idle by (now rewrite halted_this).
  rewrite removeListeners_inert. simpl.
  rewrite halted_rpcLog, halted_this.
  repeat split.
  unfold halted, geth_stop, clearInterval, modify.
  now destruct (peerCountInterval (this w)).
Qed.

(** C9: [stop] never throws, whatever the state it is called in (so also on
    a service that was never started, and a second time in a row); the
    second of two calls in a row sends no RPC at all, the handles being
    falsy by then; and each unsubscribe helper does nothing when its handle
    is falsy. *)
Theorem stop_twice_is_quiet (w : World) :
  fst (stop w) = Normal tt
  /\ fst (stop (snd (stop w))) = Normal tt
  /\ rpcLog (snd (stop (snd (stop w)))) = rpcLog (snd (stop w))
  /\ fst (stop initialWorld) = Normal tt
  /\ rpcLog (run [CallStop; CallStop] initialWorld) = []
  /\ (truthy (syncingSubscriptionId (this w)) = false ->
      unsubscribeSyncingSubscription w = (Normal tt, w))
  /\ (truthy (newHeadsSubscriptionId (this w)) = false ->
      unsubscribeNewHeadsSubscription w = (Normal tt, w)).
Proof.
  split; [apply stop_completes|].
  split; [apply stop_completes|].
  split.
  { destruct (stop_clears_handles w) as [Hs Hn].
    now apply stop_idle_sends_nothing. }
  split; [apply stop_completes|].
  split; [reflexivity|].
  split; [apply unsubscribeSyncing_idle|apply unsubscribeNewHeads_idle].
Qed.

Lemma stop_twice_is_quiet_witness :
  rpcLog (snd (stop (snd (stop headFeedActive))))
  = rpcLog (snd (stop headFeedActive))
  /\ unsubscribeSyncingSubscription headFeedActive = (Normal tt, headFeedActive).
Proof.
  pose proof (stop_twice_is_quiet headFeedActive) as (_ & _ & H & _ & _ & Hs & _).
  split; [exact H|]. apply Hs. reflexivity.
Defined.

Example stop_unsubscribes_once :
  rpcLog (run [Fulfil 10 (JBool false); Fulfil 11 (JStr "0xcd0c");
               CallStop; CallStop] connected)
  = rpcLog connected ++
    [mkRpc "eth_subscribe" (Some [JStr "newHeads"]);
     mkRpc "eth_unsubscribe" (Some [JStr "0xcd0c"])].
Proof. vm_compute. reflexivity. Qed.

(** C2: the functions [removeListeners] hands to [geth.removeListener] are
    the methods of the class, which are never the arrow functions that
    [createListeners] registered; so [removeListeners] removes nothing, and
    after [start] and [stop] the seven lifecycle listeners are all still
    registered and still dispatch. *)
Theorem lifecycle_listeners_survive_stop :
  (forall (m : Method) (f : Closure), sameFunction (MethodRef m) f = false)
  /\ (forall w, removeListeners w = (Normal tt, w))
  /\ (forall w, listeners (snd (stop w)) = listeners w)
  /\ listeners (run [CallStart mainnet; CallStop] initialWorld)
     = [(JStr "starting", mkClosure 1 StartingArrow);
        (JStr "started", mkClosure 2 StartedArrow);
        (JStr "connect", mkClosure 3 ConnectArrow);
        (JStr "stopping", mkClosure 4 StoppingArrow);
        (JStr "stopped", mkClosure 5 StoppedArrow);
        (JStr "disconnect", mkClosure 6 DisconnectArrow);
        (JStr "error", mkClosure 7 ErrorArrow)]
  /\ dispatched (run [CallStart mainnet; CallStop;
                      Emit (JStr "starting") JUndefined] initialWorld)
     = [Actions.updateNetwork (JStr "main"); Actions.updateSyncMode (JStr "light");
        Actions.gethStarting].
Proof.
  split; [reflexivity|].
  split; [exact removeListeners_inert|].
  split.
  - intro w. destruct (stop_outcome w) as (w' & E & _ & _ & Hl).
    now rewrite E.
  - split; vm_compute; reflexivity.
Qed.

(** C1: after [stop] has completed, an event of the header feed is still
    handled and dispatches a [newBlock]; an event of the sync feed still
    dispatches its progress, and its [false] sentinel still subscribes to
    the header feed and, once that subscription is confirmed, writes
    [newHeadsSubscriptionId].  The listeners of the two feeds are removed by
    method reference, as in C2, so [stop] leaves every listener
    registered. *)
Theorem feed_events_after_stop_are_handled :
  (forall w, listeners (snd (stop w)) = listeners w)
  /\ dispatched (run [CallStop; Emit (JStr "0xcd0c") header] headFeedActive)
  = dispatched (run [CallStop] headFeedActive) ++
    [Actions.newBlock (Number (JStr "436")) (Number (JStr "5"))]
  /\ dispatched (run [CallStop; Emit (JStr "0x9c") progress] syncFeedActive)
     = dispatched (run [CallStop] syncFeedActive) ++
       [Actions.updateSyncing (JNum 100) (JNum 150) (JNum 200) (JNum 10)
          (JNum 5)]
  /\ newHeadsSubscriptionId (this (run [CallStop] syncFeedActive)) = JUndefined
  /\ newHeadsSubscriptionId
       (this (run [CallStop; Emit (JStr "0x9c") (JBool false);
                   Fulfil 14 (JStr "0xf00")] syncFeedActive))
     = JStr "0xf00".
Proof.
  split.
  - intro w. destruct (stop_outcome w) as (w' & E & _ & _ & Hl).
    now rewrite E.
  - vm_compute. repeat split.
Qed.

(** ** Promises *)

Lemma takePending_later (id : nat) (k : Continuation)
    (ps rest : list (nat * Continuation)) :
  Forall (fun p => fst p < id) ps ->
  takePending id (ps ++ (id, k) :: rest) = Some (k, ps ++ rest).
Proof.
  induction ps as [|[i k'] ps IH]; intro Hlt; simpl.
  - now rewrite Nat.eqb_refl.
  - inversion Hlt as [|? ? Hi Hps]; subst. simpl in Hi.
    destruct (Nat.eqb_spec i id) as [->|_]; [lia|].
    now rewrite IH.
Qed.

Lemma Forall_lt_weaken (n m : nat) (ps : list (nat * Continuation)) :
  n <= m ->
  Forall (fun p => fst p < n) ps -> Forall (fun p => fst p < m) ps.
Proof.
  intros Hle H. eapply Forall_impl; [|exact H]. simpl. intros a Ha. lia.
Qed.

Lemma resume_AfterEthSyncing (value : JsVal) :
  resume AfterEthSyncing value
  = if isFalse value then startNewHeadsSubscription
    else startSyncingSubscription.
Proof. now destruct value as [| |[|]| | | |]. Qed.

(** ** Detection on connect *)

(** C6: after [onConnect], once the timeout has fired, the calls sent are
    [eth_getBlockByNumber] and [eth_syncing]; when the [eth_syncing] promise
    is fulfilled with [false], exactly one more call is sent,
    [eth_subscribe(["newHeads"])], and with any other value exactly one
    more, [eth_subscribe(["syncing"])]. *)
Theorem detection_subscribes_one_feed (w : World) (value : JsVal)
    (Hfresh : promisesFresh w) :
  let timer := nextId w in
  let query := S (S (nextId w)) in
  let w1 := run [FireTimeout timer] (snd (onConnect w)) in
  let w2 := run [Fulfil query value] w1 in
  rpcLog w1 = rpcLog w ++
    [mkRpc "eth_getBlockByNumber" (Some [JStr "latest"; JBool false]);
     mkRpc "eth_syncing" None]
  /\ rpcLog w2 = rpcLog w1 ++
      [mkRpc "eth_subscribe"
         (Some [JStr (if isFalse value then "newHeads" else "syncing")])].
Proof.
  unfold promisesFresh in Hfresh.
  cbv zeta. unfold run, fold_left, after, step.
  unfold onConnect, dispatch, setTimeout, fireTimeout, member.
  cbv [bind modify fresh snd]. simpl timeouts. simpl intervals.
  rewrite existsb_app. simpl existsb. rewrite Nat.eqb_refl, orb_true_r.
  unfold connectTimeoutCallback, setLastBlock, startSubscriptions, geth_rpc.
  cbv [bind modify fresh snd]. simpl.
  split; [now rewrite <- app_assoc|].
  unfold fulfil. simpl pending.
  rewrite (takePending_later (S (S (nextId w))) AfterEthSyncing
             (pending w ++ [(S (nextId w), AfterGetBlock)]) []).
  - rewrite resume_AfterEthSyncing. unfold runDetached.
    destruct (isFalse value);
      unfold startNewHeadsSubscription, startSyncingSubscription, geth_rpc;
      cbv [bind modify fresh snd]; simpl; reflexivity.
  - apply Forall_app. split.
    + eapply Forall_lt_weaken; [|exact Hfresh]. lia.
    + repeat constructor.
Qed.

Lemma detection_subscribes_one_feed_witness :
  promisesFresh connected
  /\ rpcLog (run [Fulfil 13 (JBool false)]
               (run [FireTimeout 11] (snd (onConnect connected))))
     = rpcLog connected ++
       [mkRpc "eth_getBlockByNumber" (Some [JStr "latest"; JBool false]);
        mkRpc "eth_syncing" None;
        mkRpc "eth_subscribe" (Some [JStr "newHeads"])].
Proof.
  assert (Hfresh : promisesFresh connected).
  { unfold promisesFresh. vm_compute. repeat constructor. }
  split; [exact Hfresh|].
  pose proof (detection_subscribes_one_feed connected (JBool false) Hfresh)
    as H.
  vm_compute in H. vm_compute. exact (proj2 H).
Defined.

Ltac world_simpl :=
  cbn [this gethConfig gethCalls listeners rpcLog pending timeouts intervals
       dispatched console unhandled nextId withGeth withListeners withRpc
       withTimers withObservers withNextId setThis sent unsubscribed emitted
       syncingSubscriptionId newHeadsSubscriptionId peerCountInterval
       fst snd].

Lemma geth_rpc_sent (method : string) (params : option (list JsVal))
    (k : Continuation) (w : World) :
  geth_rpc method params k w = (Normal tt, sent method params k w).
Proof. reflexivity. Qed.

(** ** Handoff *)

(** C4: when the sync feed is active (its handle is truthy) and delivers
    [false], the handler sends [eth_subscribe(["newHeads"])] and then
    [eth_unsubscribe] with the sync feed's id, in that order and nothing
    else, and clears the sync handle; once the new subscription is
    confirmed with [newId], the header handle is [newId] and the sync handle
    is still cleared. *)
Theorem handoff_on_false (w : World) (newId : JsVal)
    (Hactive : truthy (syncingSubscriptionId (this w)) = true)
    (Hfresh : promisesFresh w) :
  let syncId := syncingSubscriptionId (this w) in
  let w1 := snd (onSyncingSubscriptionResult (JBool false) w) in
  let w2 := run [Fulfil (nextId w) newId] w1 in
  fst (onSyncingSubscriptionResult (JBool false) w) = Normal tt
  /\ rpcLog w1 = rpcLog w ++
      [mkRpc "eth_subscribe" (Some [JStr "newHeads"]);
       mkRpc "eth_unsubscribe" (Some [syncId])]
  /\ syncingSubscriptionId (this w1) = JNull
  /\ rpcLog w2 = rpcLog w1
  /\ syncingSubscriptionId (this w2) = JNull
  /\ newHeadsSubscriptionId (this w2) = newId
  /\ In (newId, mkClosure (S (S (nextId w))) NewHeadsArrow) (listeners w2).
Proof.
  cbv zeta.
  assert (E : onSyncingSubscriptionResult (JBool false) w
              = setSyncingSubscriptionId JNull
                  (unsubscribed (syncingSubscriptionId (this w))
                     (sent "eth_subscribe" (Some [JStr "newHeads"])
                        AfterSubscribeNewHeads w))).
  { unfold onSyncingSubscriptionResult, startNewHeadsSubscription.
    unfold bind at 1. rewrite geth_rpc_sent.
    now rewrite unsubscribeSyncing_active. }
  rewrite E. unfold setSyncingSubscriptionId, modify.
  world_simpl.
  split; [reflexivity|].
  split; [now rewrite <- app_assoc|].
  split; [reflexivity|].
  unfold run, fold_left, after, step, fulfil. world_simpl.
  rewrite <- app_assoc. cbn [app].
  rewrite takePending_later by exact Hfresh.
  unfold resume, runDetached, setNewHeadsSubscriptionId, arrow, geth_on.
  cbv [bind modify fresh ret]. world_simpl.
  repeat split. apply in_or_app. right. now left.
Qed.

Lemma handoff_on_false_witness :
  truthy (syncingSubscriptionId (this syncFeedActive)) = true
  /\ promisesFresh syncFeedActive
  /\ rpcLog (snd (onSyncingSubscriptionResult (JBool false) syncFeedActive))
     = rpcLog syncFeedActive ++
       [mkRpc "eth_subscribe" (Some [JStr "newHeads"]);
        mkRpc "eth_unsubscribe" (Some [JStr "0x9c"])].
Proof.
  assert (Hfresh : promisesFresh syncFeedActive).
  { unfold promisesFresh. vm_compute. repeat constructor. }
  split; [reflexivity|]. split; [exact Hfresh|].
  exact (proj1 (proj2 (handoff_on_false syncFeedActive (JStr "0xf00")
                         eq_refl Hfresh))).
Defined.

(** ** Polling the peer count *)

(** C8, as stated, fails: a rejected [net_peerCount] is neither caught nor
    reported. *)
Lemma failed_peerCount_goes_unreported :
  ~ caughtAndReported connected
      (run [Tick 0; Reject 11 (JStr "ECONNRESET")] connected).
Proof.
  intros [Hcaught _]. vm_compute in Hcaught. discriminate Hcaught.
Qed.

(** C8, amended: a rejected [net_peerCount] is left as an unhandled
    rejection and nothing is dispatched or logged for it; the interval stays
    set, and its next tick sends [net_peerCount] again. *)
Theorem failed_peerCount_keeps_polling (w : World) (timer : nat)
    (reason : JsVal)
    (Hrunning : member timer (intervals w) = true)
    (Hfresh : promisesFresh w) :
  let w1 := run [Tick timer; Reject (nextId w) reason] w in
  intervals w1 = intervals w
  /\ unhandled w1 = unhandled w ++ [Rejection reason]
  /\ dispatched w1 = dispatched w
  /\ console w1 = console w
  /\ rpcLog (run [Tick timer] w1) = rpcLog w1 ++ [mkRpc "net_peerCount" None].
Proof.
  cbv zeta.
  assert (E : run [Tick timer; Reject (nextId w) reason] w
              = snd (unhandledRejection (Rejection reason)
                       (withRpc (rpcLog w ++ [mkRpc "net_peerCount" None])
                          (pending w ++ [])
                          (sent "net_peerCount" None AfterPeerCount w)))).
  { unfold run, fold_left, after, step, tick. rewrite Hrunning.
    unfold updatePeerCount. rewrite geth_rpc_sent. cbn [snd].
    unfold reject. cbn [pending rpcLog sent withRpc withNextId].
    now rewrite takePending_later by exact Hfresh. }
  rewrite E. unfold unhandledRejection, modify. world_simpl.
  repeat (split; [reflexivity|]).
  unfold run, fold_left, after, step, tick. world_simpl. rewrite Hrunning.
  unfold updatePeerCount. now rewrite geth_rpc_sent.
Qed.

Lemma failed_peerCount_keeps_polling_witness :
  member 0 (intervals connected) = true
  /\ promisesFresh connected
  /\ intervals (run [Tick 0; Reject 11 (JStr "ECONNRESET")] connected) = [0]
  /\ unhandled (run [Tick 0; Reject 11 (JStr "ECONNRESET")] connected)
     = [Rejection (JStr "ECONNRESET")].
Proof.
  assert (Hfresh : promisesFresh connected).
  { unfold promisesFresh. vm_compute. repeat constructor. }
  split; [reflexivity|]. split; [exact Hfresh|].
  pose proof (failed_peerCount_keeps_polling connected 0 (JStr "ECONNRESET")
                eq_refl Hfresh) as H.
  vm_compute in H. vm_compute.
  destruct H as (H1 & H2 & _). split; [exact H1|exact H2].
Defined.

(** ** One feed at a time *)

(** C5, as stated, fails: after a second connect both handles are set, and
    they stay set through later events. *)
Lemma both_feeds_after_reconnect :
  reachable reconnected
  /\ syncingSubscriptionId (this reconnected) = JStr "0x9c"
  /\ newHeadsSubscriptionId (this reconnected) = JStr "0xcd0c"
  /\ syncActive (run [Emit (JStr "0xcd0c") header; Tick 0] reconnected)
       && headActive (run [Emit (JStr "0xcd0c") header; Tick 0] reconnected)
     = true.
Proof.
  split.
  - exists [CallStart mainnet; Emit (JStr "connect") JUndefined; FireTimeout 8;
            Fulfil 10 (JBool true); Fulfil 11 (JStr "0x9c");
            Emit (JStr "disconnect") JUndefined;
            Emit (JStr "connect") JUndefined; FireTimeout 13;
            Fulfil 15 (JBool false); Fulfil 16 (JStr "0xcd0c")].
    vm_compute. reflexivity.
  - vm_compute. repeat split.
Qed.

Ltac measures :=
  unfold connects, detections, headRequests, syncListeners, syncActive,
    headActive in *;
  world_simpl;
  rewrite ?filter_app, ?length_app;
  cbn [filter List.length isConnected isDetection isHeadRequest
       isSyncListener fn_site fn_id snd fst truthy negb].

Lemma Exclusive_initialWorld : Exclusive initialWorld.
Proof.
  unfold Exclusive, feedless. measures. cbn. intuition discriminate.
Qed.

(** A world with no more detections, requests, listeners or live handles
    than one that satisfies the invariant, and as many connects, satisfies
    it too. *)
Lemma Exclusive_calmer (w w' : World) :
  connects w' = connects w ->
  detections w' <= detections w ->
  headRequests w' <= headRequests w ->
  syncListeners w' <= syncListeners w ->
  (syncActive w' = true -> syncActive w = true) ->
  (headActive w' = true -> headActive w = true) ->
  Exclusive w -> Exclusive w'.
Proof.
  intros Hc Hd Hh Hl Hs Hn Hw. unfold Exclusive, feedless in *.
  rewrite Hc. intro Hle. destruct (Hw Hle) as (K0 & K1 & K2 & K3).
  assert (Hfeedless : feedless w -> feedless w').
  { unfold feedless. intros (F1 & F2 & F3 & F4).
    repeat split; try lia.
    - destruct (syncActive w'); [|reflexivity].
      rewrite Hs in F3 by reflexivity. discriminate.
    - destruct (headActive w'); [|reflexivity].
      rewrite Hn in F4 by reflexivity. discriminate. }
  unfold feedless in Hfeedless.
  repeat split.
  - destruct (K0 H) as [Hz _]. lia.
  - apply Hfeedless, K0, H.
  - apply Hfeedless, K0, H.
  - apply Hfeedless, K0, H.
  - apply Hfeedless, K0, H.
  - lia.
  - apply Hfeedless, K2. lia.
  - apply Hfeedless, K2. lia.
  - apply Hfeedless, K2. lia.
  - apply Hfeedless, K2. lia.
  - destruct (K3 (Hs H)) as [Hz _]. lia.
  - destruct (K3 (Hs H)) as [_ Hf].
    destruct (headActive w'); [|reflexivity].
    rewrite Hn in Hf by reflexivity. discriminate.
Qed.

Lemma Exclusive_quiet (w w' : World) : quiet w w' -> Exclusive w -> Exclusive w'.
Proof.
  intros (Hc & Hd & Hh & Hl & Hs & Hn). apply Exclusive_calmer; auto; lia.
Qed.

Lemma quiet_refl (w : World) : quiet w w.
Proof. unfold quiet. repeat split; auto. Qed.

Lemma quiet_trans (w1 w2 w3 : World) : quiet w1 w2 -> quiet w2 w3 -> quiet w1 w3.
Proof.
  unfold quiet. intros (A1 & A2 & A3 & A4 & A5 & A6) (B1 & B2 & B3 & B4 & B5 & B6).
  repeat split; try lia; auto.
Qed.

Ltac quiet_now :=
  unfold quiet; measures; repeat split; try lia; auto; try discriminate.

Lemma Quiet_bind_value {A B : Type} (m : Js A) (k : A -> Js B)
    (P : A -> Prop) :
  Quiet m ->
  (forall w a, fst (m w) = Normal a -> P a) ->
  (forall a, P a -> Quiet (k a)) ->
  Quiet (bind m k).
Proof.
  intros Hm HP Hk w. unfold bind.
  pose proof (Hm w) as Hq. pose proof (HP w) as Hv.
  destruct (m w) as [[a|e] w']; simpl in *.
  - eapply quiet_trans; [exact Hq|]. apply Hk. now apply Hv.
  - exact Hq.
Qed.

Lemma Quiet_bind {A B : Type} (m : Js A) (k : A -> Js B) :
  Quiet m -> (forall a, Quiet (k a)) -> Quiet (bind m k).
Proof.
  intros Hm Hk. apply Quiet_bind_value with (P := fun _ => True); auto.
Qed.

Lemma Quiet_ret {A : Type} (a : A) : Quiet (ret a).
Proof. intro w. apply quiet_refl. Qed.

Lemma Quiet_throw {A : Type} (e : JsError) : Quiet (@throw A e).
Proof. intro w. apply quiet_refl. Qed.

Lemma Quiet_get {A : Type} (f : World -> A) : Quiet (get f).
Proof. intro w. apply quiet_refl. Qed.

Lemma Quiet_if {A : Type} (b : bool) (m1 m2 : Js A) :
  Quiet m1 -> Quiet m2 -> Quiet (if b then m1 else m2).
Proof. now destruct b. Qed.

Lemma Quiet_fresh : Quiet fresh.
Proof. intro w. unfold fresh. quiet_now. Qed.

Lemma Quiet_destructurable (v : JsVal) : Quiet (destructurable v).
Proof. unfold destructurable. destruct (nullish v); intro w; apply quiet_refl. Qed.

Lemma Quiet_geth_setConfig (config : JsVal) : Quiet (geth_setConfig config).
Proof. intro w. unfold geth_setConfig, modify. quiet_now. Qed.

Lemma Quiet_geth_start : Quiet geth_start.
Proof. intro w. unfold geth_start, modify. quiet_now. Qed.

Lemma Quiet_geth_stop : Quiet geth_stop.
Proof. intro w. unfold geth_stop, modify. quiet_now. Qed.

Lemma Quiet_dispatch (a : Action) : isConnected a = false -> Quiet (dispatch a).
Proof.
  intros Ha w. unfold dispatch, modify, quiet. measures. rewrite Ha. simpl.
  repeat split; auto; lia.
Qed.

Lemma Quiet_console_log (s : string) : Quiet (console_log s).
Proof. intro w. unfold console_log, modify. quiet_now. Qed.

Lemma Quiet_unhandledRejection (e : JsError) : Quiet (unhandledRejection e).
Proof. intro w. unfold unhandledRejection, modify. quiet_now. Qed.

Lemma Quiet_geth_rpc (method : string) (params : option (list JsVal))
    (k : Continuation) :
  isDetection (0, k) = false -> isHeadRequest (0, k) = false ->
  Quiet (geth_rpc method params k).
Proof.
  intros Hd Hh w. rewrite geth_rpc_sent. unfold quiet.
  unfold connects, detections, headRequests, syncListeners, syncActive,
    headActive.
  world_simpl. rewrite !filter_app, !length_app.
  cbn [filter]. change (isDetection (nextId w, k)) with (isDetection (0, k)).
  change (isHeadRequest (nextId w, k)) with (isHeadRequest (0, k)).
  rewrite Hd, Hh. simpl. repeat split; auto; lia.
Qed.

Lemma Quiet_geth_on (eventName : JsVal) (f : Closure) :
  isSyncListener (eventName, f) = false -> Quiet (geth_on eventName f).
Proof.
  intros Hf w. unfold geth_on, modify, quiet.
  unfold connects, detections, headRequests, syncListeners, syncActive,
    headActive.
  world_simpl. rewrite !filter_app, !length_app.
  cbn [filter]. rewrite Hf. simpl. repeat split; auto; lia.
Qed.

Lemma Quiet_geth_removeListener (eventName : JsVal) (m : Method) :
  Quiet (geth_removeListener eventName (MethodRef m)).
Proof. intro w. rewrite geth_removeListener_method. apply quiet_refl. Qed.

Lemma Quiet_setInterval : Quiet setInterval.
Proof.
  intro w. unfold setInterval, fresh. cbv [bind modify ret]. quiet_now.
Qed.

Lemma Quiet_clearInterval (handle : option nat) : Quiet (clearInterval handle).
Proof.
  intro w. unfold clearInterval, modify, ret. destruct handle; quiet_now.
Qed.

Lemma Quiet_setPeerCountInterval (id : nat) : Quiet (setPeerCountInterval id).
Proof. intro w. unfold setPeerCountInterval, modify. quiet_now. Qed.

Lemma Quiet_clear_syncing : Quiet (setSyncingSubscriptionId JNull).
Proof. intro w. unfold setSyncingSubscriptionId, modify. quiet_now. Qed.

Lemma Quiet_clear_newHeads : Quiet (setNewHeadsSubscriptionId JNull).
Proof. intro w. unfold setNewHeadsSubscriptionId, modify. quiet_now. Qed.

Ltac quiet_step :=
  lazymatch goal with
  | |- Quiet (bind _ _) => apply Quiet_bind; [|intro]
  | |- Quiet (if _ then _ else _) => apply Quiet_if
  | |- Quiet (ret _) => apply Quiet_ret
  | |- Quiet (throw _) => apply Quiet_throw
  | |- Quiet (get _) => apply Quiet_get
  | |- Quiet fresh => apply Quiet_fresh
  | |- Quiet (destructurable _) => apply Quiet_destructurable
  | |- Quiet (geth_setConfig _) => apply Quiet_geth_setConfig
  | |- Quiet geth_start => apply Quiet_geth_start
  | |- Quiet geth_stop => apply Quiet_geth_stop
  | |- Quiet (dispatch _) => apply Quiet_dispatch; reflexivity
  | |- Quiet (console_log _) => apply Quiet_console_log
  | |- Quiet (unhandledRejection _) => apply Quiet_unhandledRejection
  | |- Quiet (geth_rpc _ _ _) => apply Quiet_geth_rpc; reflexivity
  | |- Quiet (geth_removeListener _ (MethodRef _)) =>
      apply Quiet_geth_removeListener
  | |- Quiet setInterval => apply Quiet_setInterval
  | |- Quiet (clearInterval _) => apply Quiet_clearInterval
  | |- Quiet (setPeerCountInterval _) => apply Quiet_setPeerCountInterval
  | |- Quiet (setSyncingSubscriptionId JNull) => apply Quiet_clear_syncing
  | |- Quiet (setNewHeadsSubscriptionId JNull) => apply Quiet_clear_newHeads
  end.

Ltac quiet_chain := repeat quiet_step.

Lemma arrow_site (site : ArrowSite) (w : World) (f : Closure) :
  fst (arrow site w) = Normal f -> fn_site f = site.
Proof. unfold arrow, fresh. cbv [bind ret]. simpl. now intros [= <-]. Qed.

Lemma Quiet_arrow (site : ArrowSite) : Quiet (arrow site).
Proof. unfold arrow. quiet_chain. Qed.

Lemma Quiet_listen (site : ArrowSite) (eventName : JsVal) (rest : Js unit) :
  site <> SyncingArrow ->
  Quiet rest ->
  Quiet (f <- arrow site ;; geth_on eventName f ;; rest).
Proof.
  intros Hsite Hrest.
  apply Quiet_bind_value with (P := fun f => fn_site f = site).
  - apply Quiet_arrow.
  - apply arrow_site.
  - intros f Hf. apply Quiet_bind; [|intro; exact Hrest].
    apply Quiet_geth_on. unfold isSyncListener. simpl. rewrite Hf.
    now destruct site.
Qed.

Lemma Quiet_createListeners : Quiet createListeners.
Proof.
  unfold createListeners.
  do 6 (apply Quiet_listen; [discriminate|]).
  apply Quiet_bind_value with (P := fun f => fn_site f = ErrorArrow).
  - apply Quiet_arrow.
  - apply arrow_site.
  - intros f Hf. apply Quiet_geth_on. unfold isSyncListener. simpl.
    now rewrite Hf.
Qed.

Lemma Quiet_removeListeners : Quiet removeListeners.
Proof. unfold removeListeners. quiet_chain. Qed.

Lemma Quiet_unsubscribeSyncing : Quiet unsubscribeSyncingSubscription.
Proof. unfold unsubscribeSyncingSubscription. quiet_chain. Qed.

Lemma Quiet_unsubscribeNewHeads : Quiet unsubscribeNewHeadsSubscription.
Proof. unfold unsubscribeNewHeadsSubscription. quiet_chain. Qed.

Lemma Quiet_start (config : JsVal) : Quiet (start config).
Proof.
  unfold start, setConfig, geth_getConfig. quiet_chain.
  apply Quiet_createListeners.
Qed.

Lemma Quiet_stop : Quiet stop.
Proof.
  unfold stop. quiet_chain.
  - apply Quiet_unsubscribeSyncing.
  - apply Quiet_unsubscribeNewHeads.
  - apply Quiet_removeListeners.
Qed.

Lemma Quiet_updatePeerCount : Quiet updatePeerCount.
Proof. unfold updatePeerCount. quiet_chain. Qed.

Lemma Quiet_tick (timer : nat) : Quiet (tick timer).
Proof.
  intro w. unfold tick.
  destruct (member timer (intervals w)); [|apply quiet_refl].
  apply Quiet_updatePeerCount.
Qed.

Lemma Quiet_onNewHeads (result : JsVal) :
  Quiet (onNewHeadsSubscriptionResult result).
Proof. unfold onNewHeadsSubscriptionResult. quiet_chain. Qed.

Lemma Quiet_onSyncing_progress (result : JsVal) :
  result <> JBool false -> Quiet (onSyncingSubscriptionResult result).
Proof.
  intro Hnf. unfold onSyncingSubscriptionResult.
  destruct result as [| |[|]| | | |]; try congruence; quiet_chain.
Qed.

Lemma Quiet_runDetached (m : Js unit) : Quiet m -> Quiet (runDetached m).
Proof.
  intros Hm w. unfold runDetached. pose proof (Hm w) as Hq.
  destruct (m w) as [[a|e] w']; simpl in *; [exact Hq|].
  eapply quiet_trans; [exact Hq|]. apply Quiet_unhandledRejection.
Qed.

Lemma Quiet_call_plain (f : Closure) (arg : JsVal) :
  fn_site f <> ConnectArrow -> fn_site f <> SyncingArrow ->
  Quiet (call f arg).
Proof.
  intros Hc Hs. unfold call.
  destruct (fn_site f); try congruence;
    try (unfold onStarting, onStarted, onStopping, onStopped, onDisconnect,
           onError; quiet_chain).
  apply Quiet_onNewHeads.
Qed.

(** Taking a promise off the pending list takes one off the count of its
    kind and leaves the other counts. *)
Lemma takePending_measure (id : nat) (ps rest : list (nat * Continuation))
    (k : Continuation) :
  takePending id ps = Some (k, rest) ->
  List.length (filter isDetection ps)
  = List.length (filter isDetection rest) + (if isDetection (0, k) then 1 else 0)
  /\ List.length (filter isHeadRequest ps)
     = List.length (filter isHeadRequest rest)
       + (if isHeadRequest (0, k) then 1 else 0).
Proof.
  revert rest. induction ps as [|[i k'] ps IH]; intros rest E; simpl in E.
  - discriminate.
  - destruct (Nat.eqb i id).
    + injection E as <- <-. cbn [filter].
      change (isDetection (i, k')) with (isDetection (0, k')).
      change (isHeadRequest (i, k')) with (isHeadRequest (0, k')).
      destruct (isDetection (0, k')), (isHeadRequest (0, k')); simpl; lia.
    + destruct (takePending id ps) as [[k1 rest1]|]; [|discriminate].
      injection E as <- <-. destruct (IH rest1 eq_refl) as [Hd Hh].
      cbn [filter].
      destruct (isDetection (i, k')), (isHeadRequest (i, k')); simpl; lia.
Qed.

Lemma settled_quiet (id : nat) (k : Continuation)
    (rest : list (nat * Continuation)) (w : World) :
  takePending id (pending w) = Some (k, rest) ->
  quiet w (withRpc (rpcLog w) rest w).
Proof.
  intro E. destruct (takePending_measure _ _ _ _ E) as [Hd Hh].
  unfold quiet, connects, detections, headRequests, syncListeners, syncActive,
    headActive.
  world_simpl. repeat split; auto; lia.
Qed.

Lemma Quiet_reject (id : nat) (reason : JsVal) : Quiet (reject id reason).
Proof.
  intro w. unfold reject.
  destruct (takePending id (pending w)) as [[k rest]|] eqn:E;
    [|apply quiet_refl].
  eapply quiet_trans; [exact (settled_quiet _ _ _ _ E)|].
  apply Quiet_unhandledRejection.
Qed.

Lemma Quiet_resume_plain (k : Continuation) (value : JsVal) :
  isDetection (0, k) = false -> isHeadRequest (0, k) = false ->
  Quiet (resume k value).
Proof.
  intros Hd Hh. destruct k; try discriminate; unfold resume; quiet_chain.
Qed.

Lemma filter_member_shorter (id : nat) (ids : list nat) :
  member id ids = true ->
  S (List.length (filter (fun i => negb (Nat.eqb i id)) ids))
  <= List.length ids.
Proof.
  unfold member. induction ids as [|i ids IH]; simpl; [discriminate|].
  intro H. rewrite (Nat.eqb_sym i id).
  destruct (Nat.eqb id i); simpl.
  - pose proof (filter_length_le (fun i => negb (Nat.eqb i id)) ids). lia.
  - apply IH in H. lia.
Qed.

Lemma Quiet_fireTimeout (timer : nat) : Quiet (fireTimeout timer).
Proof.
  intro w. unfold fireTimeout.
  destruct (member timer (timeouts w)) eqn:Hm; [|apply quiet_refl].
  apply filter_member_shorter in Hm.
  unfold connectTimeoutCallback, setLastBlock, startSubscriptions.
  unfold bind. rewrite geth_rpc_sent. rewrite geth_rpc_sent.
  unfold quiet, connects, detections, headRequests, syncListeners, syncActive,
    headActive.
  world_simpl. rewrite !filter_app, !length_app. simpl.
  repeat split; auto; lia.
Qed.

Ltac exclusive_open :=
  unfold Exclusive, feedless, connects, detections, headRequests,
    syncListeners, syncActive, headActive in *;
  world_simpl;
  rewrite ?filter_app, ?length_app;
  cbn [filter List.length isConnected isDetection isHeadRequest
       isSyncListener fn_site fn_id snd fst truthy negb Nat.add].

Lemma onConnect_Exclusive (w : World) :
  Exclusive w -> Exclusive (snd (onConnect w)).
Proof.
  intro Hw. unfold onConnect, dispatch, setTimeout, fresh.
  cbv [bind modify]. exclusive_open.
  intro Hle. assert (Hc : List.length (filter isConnected (dispatched w)) = 0) by lia.
  destruct Hw as (K0 & _); [lia|].
  destruct (K0 Hc) as (Hd & Hh & Hl & Hs & Hn).
  rewrite Hs. repeat split; auto; try lia; discriminate.
Qed.

Lemma onSyncing_false_world (w : World) :
  exists sync' log ps n,
    snd (onSyncingSubscriptionResult (JBool false) w)
    = setThis (fun s => mkService (peerCountInterval s) sync'
                          (newHeadsSubscriptionId s))
        (withRpc log ps (withNextId n w))
    /\ truthy sync' = false
    /\ filter isDetection ps = filter isDetection (pending w)
    /\ List.length (filter isHeadRequest ps)
       = S (List.length (filter isHeadRequest (pending w))).
Proof.
  unfold onSyncingSubscriptionResult, startNewHeadsSubscription.
  unfold bind at 1. rewrite geth_rpc_sent.
  destruct (truthy (syncingSubscriptionId (this w))) eqn:Hs.
  - rewrite unsubscribeSyncing_active by exact Hs.
    exists JNull. unfold setSyncingSubscriptionId, modify. world_simpl.
    do 3 eexists. split; [reflexivity|]. split; [reflexivity|].
    world_simpl.
    rewrite !filter_app, !length_app. simpl. rewrite !app_nil_r.
    split; [reflexivity|lia].
  - rewrite unsubscribeSyncing_idle by exact Hs.
    exists (syncingSubscriptionId (this w)),
      (rpcLog w ++ [mkRpc "eth_subscribe" (Some [JStr "newHeads"])]),
      (pending w ++ [(nextId w, AfterSubscribeNewHeads)]),
      (S (nextId w)).
    split; [now destruct w as [[]]|]. split; [exact Hs|].
    rewrite !filter_app, !length_app. simpl. rewrite !app_nil_r.
    split; [reflexivity|lia].
Qed.

Lemma onSyncing_false_Exclusive (w : World) :
  1 <= syncListeners w ->
  Exclusive w -> Exclusive (snd (onSyncingSubscriptionResult (JBool false) w)).
Proof.
  intros Hl Hw.
  destruct (onSyncing_false_world w) as (sync' & log & ps & n & E & Hfalsy & Hdet & Hhead).
  rewrite E. clear E.
  exclusive_open. rewrite Hdet, Hhead, Hfalsy.
  intro Hle. destruct (Hw Hle) as (K0 & K1 & K2 & K3).
  assert (Hc : List.length (filter isConnected (dispatched w)) <> 0).
  { intro Hc. destruct (K0 Hc) as (_ & _ & Hz & _). lia. }
  assert (Hd : List.length (timeouts w)
               + List.length (filter isDetection (pending w)) = 0).
  { destruct (Nat.eq_dec (List.length (timeouts w)
               + List.length (filter isDetection (pending w))) 1) as [H1|H1];
      [|lia].
    destruct (K2 H1) as (_ & Hz & _). lia. }
  repeat split; try lia; try discriminate.
Qed.

Ltac exclusive_close :=
  repeat match goal with
         | |- context [truthy ?v] =>
             lazymatch v with
             | JNull => fail
             | _ => destruct (truthy v)
             end
         end;
  intuition (try lia; try discriminate; try congruence).

Lemma fulfil_Exclusive (id : nat) (value : JsVal) (w : World) :
  Exclusive w -> Exclusive (snd (fulfil id value w)).
Proof.
  intro Hw. unfold fulfil.
  destruct (takePending id (pending w)) as [[k rest]|] eqn:E; [|exact Hw].
  destruct (takePending_measure _ _ _ _ E) as [Hd Hh].
  destruct k.
  - (* AfterEthSyncing *)
    rewrite resume_AfterEthSyncing. unfold runDetached.
    destruct (isFalse value);
      unfold startNewHeadsSubscription, startSyncingSubscription;
      rewrite geth_rpc_sent; exclusive_open; simpl in Hd, Hh;
      rewrite Hd, Hh in Hw; clear Hd Hh E; simpl; exclusive_close.
  - (* AfterGetBlock *)
    apply Exclusive_quiet with w; [|exact Hw].
    eapply quiet_trans; [exact (settled_quiet _ _ _ _ E)|].
    now apply Quiet_runDetached, Quiet_resume_plain.
  - (* AfterSubscribeNewHeads *)
    unfold resume, runDetached, setNewHeadsSubscriptionId, arrow, geth_on,
      fresh.
    cbv [bind modify ret]. exclusive_open. simpl in Hd, Hh.
    rewrite Hd, Hh in Hw. clear Hd Hh E. simpl. exclusive_close.
  - (* AfterSubscribeSyncing *)
    unfold resume, runDetached, setSyncingSubscriptionId, arrow, geth_on,
      fresh.
    cbv [bind modify ret]. exclusive_open. simpl in Hd, Hh.
    rewrite Hd, Hh in Hw. clear Hd Hh E. simpl. exclusive_close.
  - (* AfterPeerCount *)
    apply Exclusive_quiet with w; [|exact Hw].
    eapply quiet_trans; [exact (settled_quiet _ _ _ _ E)|].
    now apply Quiet_runDetached, Quiet_resume_plain.
  - (* Dropped *)
    apply Exclusive_quiet with w; [|exact Hw].
    eapply quiet_trans; [exact (settled_quiet _ _ _ _ E)|].
    now apply Quiet_runDetached, Quiet_resume_plain.
Qed.

(** ** Events *)

Lemma call_syncListeners (f : Closure) (arg : JsVal) (w : World) :
  syncListeners (snd (call f arg w)) = syncListeners w.
Proof.
  destruct (fn_site f) eqn:Hsite;
    try (apply Quiet_call_plain; rewrite Hsite; discriminate).
  - unfold call. rewrite Hsite.
    unfold onConnect, dispatch, setTimeout, fresh. cbv [bind modify].
    reflexivity.
  - unfold call. rewrite Hsite.
    destruct arg as [| |[|]| | | |];
      try (apply Quiet_onSyncing_progress; discriminate).
    destruct (onSyncing_false_world w) as (s' & log & ps & n & E & _).
    now rewrite E.
Qed.

Lemma call_Exclusive (f : Closure) (arg : JsVal) (w : World) :
  (fn_site f = SyncingArrow -> 1 <= syncListeners w) ->
  Exclusive w -> Exclusive (snd (call f arg w)).
Proof.
  intros Hl Hw.
  destruct (fn_site f) eqn:Hsite;
    try (apply Exclusive_quiet with w; [|exact Hw];
         apply Quiet_call_plain; rewrite Hsite; discriminate).
  - unfold call. rewrite Hsite. now apply onConnect_Exclusive.
  - unfold call. rewrite Hsite.
    destruct arg as [| |[|]| | | |];
      try (apply Exclusive_quiet with w; [|exact Hw];
           apply Quiet_onSyncing_progress; discriminate).
    apply onSyncing_false_Exclusive; auto.
Qed.

Lemma callAll_Exclusive (fs : list Closure) (arg : JsVal) :
  forall w,
  (forall f, In f fs -> fn_site f = SyncingArrow -> 1 <= syncListeners w) ->
  Exclusive w -> Exclusive (snd (callAll fs arg w)).
Proof.
  induction fs as [|f fs IH]; intros w Hl Hw; simpl; [exact Hw|].
  unfold bind.
  pose proof (call_Exclusive f arg w (Hl f (or_introl eq_refl)) Hw) as H1.
  pose proof (call_syncListeners f arg w) as H2.
  destruct (call f arg w) as [[a|e] w']; simpl in *; [|exact H1].
  apply IH; [|exact H1].
  intros g Hg Hsite. rewrite H2. apply (Hl g); auto.
Qed.

Lemma listenersOf_syncListeners (eventName : JsVal) (w : World) (f : Closure) :
  In f (listenersOf eventName (listeners w)) ->
  fn_site f = SyncingArrow -> 1 <= syncListeners w.
Proof.
  unfold listenersOf, syncListeners. intros Hin Hsite.
  apply in_map_iff in Hin. destruct Hin as ([k g] & Hg & Hin). simpl in Hg.
  subst g. apply filter_In in Hin. destruct Hin as [Hin _].
  assert (Hf : In (k, f) (filter isSyncListener (listeners w))).
  { apply filter_In. split; [exact Hin|].
    unfold isSyncListener. simpl. now rewrite Hsite. }
  destruct (filter isSyncListener (listeners w)); [destruct Hf|simpl; lia].
Qed.

Lemma emit_Exclusive (eventName arg : JsVal) (w : World) :
  Exclusive w -> Exclusive (snd (emit eventName arg w)).
Proof.
  intro Hw. unfold emit, bind, get.
  apply callAll_Exclusive; [|exact Hw].
  intros f Hin. now apply listenersOf_syncListeners with eventName.
Qed.

(** The invariant is kept by every input. *)
Lemma step_Exclusive (i : Input) (w : World) :
  Exclusive w -> Exclusive (after i w).
Proof.
  intro Hw. unfold after. destruct i as [config| |e a|p v|p r|t|t]; simpl.
  - apply Exclusive_quiet with w; [apply Quiet_start|exact Hw].
  - apply Exclusive_quiet with w; [apply Quiet_stop|exact Hw].
  - now apply emit_Exclusive.
  - now apply fulfil_Exclusive.
  - apply Exclusive_quiet with w; [apply Quiet_reject|exact Hw].
  - apply Exclusive_quiet with w; [apply Quiet_fireTimeout|exact Hw].
  - apply Exclusive_quiet with w; [apply Quiet_tick|exact Hw].
Qed.

Lemma run_Exclusive (inputs : list Input) :
  forall w, Exclusive w -> Exclusive (run inputs w).
Proof.
  induction inputs as [|i inputs IH]; intros w Hw; simpl; [exact Hw|].
  apply IH. now apply step_Exclusive.
Qed.

(** C5, amended: in every reachable state in which [onConnect] has run at
    most once (at most one [gethConnected] has been dispatched), the sync
    handle and the header handle are not both truthy. *)
Theorem one_feed_after_one_connect (w : World)
    (Hreach : reachable w) (Honce : connects w <= 1) :
  syncActive w && headActive w = false.
Proof.
  destruct Hreach as [inputs <-].
  pose proof (run_Exclusive inputs initialWorld Exclusive_initialWorld) as H.
  destruct (H Honce) as (_ & _ & _ & K3).
  destruct (syncActive (run inputs initialWorld)); [|reflexivity].
  now destruct (K3 eq_refl) as [_ ->].
Qed.

Lemma one_feed_after_one_connect_witness :
  reachable syncFeedActive /\ connects syncFeedActive <= 1
  /\ syncActive syncFeedActive && headActive syncFeedActive = false.
Proof.
  assert (Hreach : reachable syncFeedActive).
  { exists [CallStart mainnet; Emit (JStr "connect") JUndefined; FireTimeout 8;
            Fulfil 10 (JBool true); Fulfil 11 (JStr "0x9c")].
    vm_compute. reflexivity. }
  assert (Honce : connects syncFeedActive <= 1).
  { vm_compute. lia. }
  split; [exact Hreach|]. split; [exact Honce|].
  exact (one_feed_after_one_connect syncFeedActive Hreach Honce).
Defined.

(** ** Promise identities stay fresh *)

Lemma Keeps_bind {A B : Type} (I : World -> Prop) (m : Js A)
    (k : A -> Js B) :
  Keeps I m -> (forall a, Keeps I (k a)) -> Keeps I (bind m k).
Proof.
  intros Hm Hk w Hw. unfold bind. pose proof (Hm w Hw) as H.
  destruct (m w) as [[a|e] w']; simpl in *; [now apply Hk|exact H].
Qed.

Lemma Keeps_pure {A : Type} (I : World -> Prop) (m : Js A) :
  (forall w, snd (m w) = w) -> Keeps I m.
Proof. intros Hm w Hw. now rewrite Hm. Qed.

Lemma Keeps_if {A : Type} (I : World -> Prop) (b : bool) (m1 m2 : Js A) :
  Keeps I m1 -> Keeps I m2 -> Keeps I (if b then m1 else m2).
Proof. now destruct b. Qed.

Lemma promisesFresh_modify (f : World -> World) :
  (forall w, pending (f w) = pending w) ->
  (forall w, nextId (f w) = nextId w) ->
  Keeps promisesFresh (modify f).
Proof.
  intros Hp Hn w Hw. unfold promisesFresh, modify in *. simpl.
  now rewrite Hp, Hn.
Qed.

Lemma promisesFresh_fresh : Keeps promisesFresh fresh.
Proof.
  intros w Hw. unfold promisesFresh, fresh in *. simpl.
  eapply Forall_lt_weaken; [|exact Hw]. lia.
Qed.

Lemma promisesFresh_geth_rpc (method : string)
    (params : option (list JsVal)) (k : Continuation) :
  Keeps promisesFresh (geth_rpc method params k).
Proof.
  intros w Hw. rewrite geth_rpc_sent. unfold promisesFresh in *.
  world_simpl. apply Forall_app. split.
  - eapply Forall_lt_weaken; [|exact Hw]. lia.
  - repeat constructor.
Qed.

Lemma promisesFresh_destructurable (v : JsVal) :
  Keeps promisesFresh (destructurable v).
Proof.
  unfold destructurable. destruct (nullish v); now apply Keeps_pure.
Qed.

Lemma promisesFresh_clearInterval (handle : option nat) :
  Keeps promisesFresh (clearInterval handle).
Proof.
  destruct handle; simpl;
    [now apply promisesFresh_modify|now apply Keeps_pure].
Qed.

Ltac fresh_step :=
  lazymatch goal with
  | |- Keeps _ (bind _ _) => apply Keeps_bind; [|intro]
  | |- Keeps _ (if _ then _ else _) => apply Keeps_if
  | |- Keeps _ (ret _) => apply Keeps_pure; reflexivity
  | |- Keeps _ (throw _) => apply Keeps_pure; reflexivity
  | |- Keeps _ (get _) => apply Keeps_pure; reflexivity
  | |- Keeps _ fresh => apply promisesFresh_fresh
  | |- Keeps _ (geth_rpc _ _ _) => apply promisesFresh_geth_rpc
  | |- Keeps _ (destructurable _) => apply promisesFresh_destructurable
  | |- Keeps _ (clearInterval _) => apply promisesFresh_clearInterval
  | |- Keeps _ (modify _) => apply promisesFresh_modify; reflexivity
  | |- Keeps _ (geth_removeListener _ _) => unfold geth_removeListener
  | |- Keeps _ (geth_on _ _) => unfold geth_on
  | |- Keeps _ (dispatch _) => unfold dispatch
  | |- Keeps _ (console_log _) => unfold console_log
  | |- Keeps _ (unhandledRejection _) => unfold unhandledRejection
  | |- Keeps _ (geth_setConfig _) => unfold geth_setConfig
  | |- Keeps _ geth_start => unfold geth_start
  | |- Keeps _ geth_stop => unfold geth_stop
  | |- Keeps _ (arrow _) => unfold arrow
  | |- Keeps _ setInterval => unfold setInterval
  | |- Keeps _ setTimeout => unfold setTimeout
  | |- Keeps _ (setPeerCountInterval _) => unfold setPeerCountInterval
  | |- Keeps _ (setSyncingSubscriptionId _) => unfold setSyncingSubscriptionId
  | |- Keeps _ (setNewHeadsSubscriptionId _) =>
      unfold setNewHeadsSubscriptionId
  | |- Keeps _ createListeners => unfold createListeners
  | |- Keeps _ removeListeners => unfold removeListeners
  | |- Keeps _ unsubscribeSyncingSubscription =>
      unfold unsubscribeSyncingSubscription
  | |- Keeps _ unsubscribeNewHeadsSubscription =>
      unfold unsubscribeNewHeadsSubscription
  | |- Keeps _ startNewHeadsSubscription => unfold startNewHeadsSubscription
  | |- Keeps _ startSyncingSubscription => unfold startSyncingSubscription
  | |- Keeps _ startSubscriptions => unfold startSubscriptions
  | |- Keeps _ setLastBlock => unfold setLastBlock
  | |- Keeps _ updatePeerCount => unfold updatePeerCount
  | |- Keeps _ onConnect => unfold onConnect
  | |- Keeps _ onStarting => unfold onStarting
  | |- Keeps _ onStarted => unfold onStarted
  | |- Keeps _ onStopping => unfold onStopping
  | |- Keeps _ onStopped => unfold onStopped
  | |- Keeps _ onDisconnect => unfold onDisconnect
  | |- Keeps _ (onError _) => unfold onError
  | |- Keeps _ (onNewHeadsSubscriptionResult _) =>
      unfold onNewHeadsSubscriptionResult
  | |- Keeps _ connectTimeoutCallback => unfold connectTimeoutCallback
  | |- Keeps _ (start _) => unfold start, setConfig, geth_getConfig
  | |- Keeps _ stop => unfold stop
  end.

Ltac fresh_chain := repeat fresh_step.

Lemma promisesFresh_onSyncing (result : JsVal) :
  Keeps promisesFresh (onSyncingSubscriptionResult result).
Proof.
  unfold onSyncingSubscriptionResult.
  destruct result as [| |[|]| | | |]; fresh_chain.
Qed.

Lemma promisesFresh_call (f : Closure) (arg : JsVal) :
  Keeps promisesFresh (call f arg).
Proof.
  unfold call. destruct (fn_site f); fresh_chain.
  apply promisesFresh_onSyncing.
Qed.

Lemma promisesFresh_callAll (fs : list Closure) (arg : JsVal) :
  Keeps promisesFresh (callAll fs arg).
Proof.
  induction fs as [|f fs IH]; simpl; [now apply Keeps_pure|].
  apply Keeps_bind; [apply promisesFresh_call|intro; exact IH].
Qed.

Lemma promisesFresh_resume (k : Continuation) (value : JsVal) :
  Keeps promisesFresh (resume k value).
Proof.
  destruct k; unfold resume; fresh_chain.
  destruct value as [| |[|]| | | |]; fresh_chain.
Qed.

Lemma takePending_rest (id : nat) (ps rest : list (nat * Continuation))
    (k : Continuation) :
  takePending id ps = Some (k, rest) -> incl rest ps.
Proof.
  revert rest. induction ps as [|[i k'] ps IH]; intros rest E; simpl in E.
  - discriminate.
  - destruct (Nat.eqb i id).
    + injection E as <- <-. apply incl_tl, incl_refl.
    + destruct (takePending id ps) as [[k1 rest1]|]; [|discriminate].
      injection E as <- <-.
      apply incl_cons; [now left|]. apply incl_tl. now apply IH.
Qed.

Lemma promisesFresh_settled (id : nat) (k : Continuation)
    (rest : list (nat * Continuation)) (w : World) :
  takePending id (pending w) = Some (k, rest) ->
  promisesFresh w -> promisesFresh (withRpc (rpcLog w) rest w).
Proof.
  intros E Hw. unfold promisesFresh in *. world_simpl.
  apply Forall_forall. intros p Hp.
  rewrite Forall_forall in Hw. apply Hw.
  now apply (takePending_rest _ _ _ _ E).
Qed.

Lemma promisesFresh_step (i : Input) : Keeps promisesFresh (step i).
Proof.
  destruct i as [config| |e a|p v|p r|t|t]; simpl.
  - fresh_chain.
  - fresh_chain.
  - unfold emit. apply Keeps_bind; [now apply Keeps_pure|intro].
    apply promisesFresh_callAll.
  - intros w Hw. unfold fulfil.
    destruct (takePending p (pending w)) as [[k rest]|] eqn:E; [|exact Hw].
    pose proof (promisesFresh_settled _ _ _ _ E Hw) as H0.
    unfold runDetached.
    pose proof (promisesFresh_resume k v _ H0) as H1.
    destruct (resume k v (withRpc (rpcLog w) rest w)) as [[u|err] w'];
      simpl in *; exact H1.
  - intros w Hw. unfold reject.
    destruct (takePending p (pending w)) as [[k rest]|] eqn:E; [|exact Hw].
    pose proof (promisesFresh_settled _ _ _ _ E Hw) as H0.
    revert H0. generalize (withRpc (rpcLog w) rest w).
    change (Keeps promisesFresh (unhandledRejection (Rejection r))).
    fresh_chain.
  - intros w Hw. unfold fireTimeout.
    destruct (member t (timeouts w)); [|exact Hw].
    assert (H0 : promisesFresh
                   (withTimers
                      (filter (fun i => negb (Nat.eqb i t)) (timeouts w))
                      (intervals w) w)) by exact Hw.
    revert H0. generalize (withTimers
                      (filter (fun i => negb (Nat.eqb i t)) (timeouts w))
                      (intervals w) w).
    change (Keeps promisesFresh connectTimeoutCallback). fresh_chain.
  - intros w Hw. unfold tick.
    destruct (member t (intervals w)); [|exact Hw].
    revert w Hw. change (Keeps promisesFresh updatePeerCount). fresh_chain.
Qed.

(** In every reachable world the pending promises are fresh: the
    hypothesis of the scenario theorems above always holds there. *)
Lemma reachable_promisesFresh (w : World) : reachable w -> promisesFresh w.
Proof.
  intros [inputs <-].
  assert (H : forall v, promisesFresh v -> promisesFresh (run inputs v)).
  { induction inputs as [|i inputs IH]; intros v Hv; simpl; [exact Hv|].
    apply IH. now apply promisesFresh_step. }
  apply H. constructor.
Qed.

(** * Further properties of the service *)

(** ** Starting *)

Lemma listen_registered (eventName : JsVal) (site : ArrowSite)
    (rest : Js unit) (w : World) :
  (f <- arrow site ;; geth_on eventName f ;; rest) w
  = rest (registered eventName site w).
Proof. reflexivity. Qed.

Lemma createListeners_world (w : World) :
  createListeners w
  = (Normal tt,
     withListeners (listeners w ++ lifecycleListeners (nextId w))
       (withNextId (7 + nextId w) w)).
Proof.
  unfold createListeners.
  do 6 rewrite listen_registered.
  destruct w as [t cfg calls ls log ps tos ivs ds out errs n].
  unfold arrow, geth_on, fresh, registered, lifecycleListeners.
  cbv [bind modify ret]. world_simpl.
  rewrite <- !app_assoc. reflexivity.
Qed.

Lemma start_started (w : World) (config : JsVal) :
  nullish config = false ->
  start config w = (Normal tt, started config w).
Proof.
  intro Hconfig.
  assert (E : start config w
              = createListeners
                  (setThis (fun s => mkService (Some (nextId w))
                                       (syncingSubscriptionId s)
                                       (newHeadsSubscriptionId s))
                     (withTimers (timeouts w) (intervals w ++ [nextId w])
                        (withNextId (S (nextId w))
                           (withObservers
                              (dispatched w ++
                               [Actions.updateNetwork (getProp config "network");
                                Actions.updateSyncMode
                                  (getProp config "syncMode")])
                              (console w) (unhandled w)
                              (withGeth config
                                 (gethCalls w ++ [GethSetConfig config; GethStart])
                                 w)))))).
  { unfold start, setConfig, geth_setConfig, geth_start, geth_getConfig,
      destructurable, dispatch, setInterval, setPeerCountInterval, fresh.
    cbv [bind modify get ret throw]. world_simpl. rewrite Hconfig.
    rewrite <- !app_assoc. reflexivity. }
  rewrite E, createListeners_world. reflexivity.
Qed.

(** X1: with a configuration that can be read back, [start] completes; it
    applies the configuration and starts the process, dispatches the
    network and the sync mode of the configuration, sets one interval and
    keeps its handle, registers the seven lifecycle listeners in the order
    of lines 55-61, sends no RPC and leaves the feed handles alone. *)
Theorem start_announces_and_registers (w : World) (config : JsVal)
    (Hconfig : nullish config = false) :
  let w' := snd (start config w) in
  fst (start config w) = Normal tt
  /\ gethCalls w' = gethCalls w ++ [GethSetConfig config; GethStart]
  /\ dispatched w'
     = dispatched w ++ [Actions.updateNetwork (getProp config "network");
                        Actions.updateSyncMode (getProp config "syncMode")]
  /\ intervals w' = intervals w ++ [nextId w]
  /\ peerCountInterval (this w') = Some (nextId w)
  /\ listeners w' = listeners w ++ lifecycleListeners (S (nextId w))
  /\ rpcLog w' = rpcLog w
  /\ timeouts w' = timeouts w
  /\ syncingSubscriptionId (this w') = syncingSubscriptionId (this w)
  /\ newHeadsSubscriptionId (this w') = newHeadsSubscriptionId (this w).
Proof.
  cbv zeta. rewrite (start_started w config Hconfig).
  unfold started. world_simpl. repeat split; reflexivity.
Qed.

Lemma start_announces_and_registers_witness :
  nullish mainnet = false
  /\ dispatched (snd (start mainnet initialWorld))
     = [Actions.updateNetwork (JStr "main"); Actions.updateSyncMode (JStr "light")]
  /\ intervals (snd (start mainnet initialWorld)) = [0].
Proof.
  split; [reflexivity|].
  pose proof (start_announces_and_registers initialWorld mainnet eq_refl)
    as (_ & _ & Hd & Hi & _).
  split; [exact Hd|exact Hi].
Defined.

(** X2: when the configuration read back from the process is [undefined]
    or [null], [start] throws a [TypeError] after it has applied the
    configuration and started the process: nothing is dispatched, no
    interval is set and no listener is registered. *)
Theorem start_unreadable_config_throws (w : World) (config : JsVal)
    (Hconfig : nullish config = true) :
  start config w
  = (Throw TypeError,
     withGeth config (gethCalls w ++ [GethSetConfig config; GethStart]) w).
Proof.
  unfold start, setConfig, geth_setConfig, geth_start, geth_getConfig,
    destructurable.
  cbv [bind modify get ret throw]. world_simpl. rewrite Hconfig.
  now rewrite <- app_assoc.
Qed.

Lemma start_unreadable_config_throws_witness :
  nullish JNull = true
  /\ fst (start JNull initialWorld) = Throw TypeError
  /\ listeners (snd (start JNull initialWorld)) = []
  /\ gethCalls (snd (start JNull initialWorld)) = [GethSetConfig JNull; GethStart].
Proof.
  split; [reflexivity|].
  rewrite (start_unreadable_config_throws initialWorld JNull eq_refl).
  repeat split.
Defined.

(** ** Lifecycle events *)

Lemma listenersOf_app (eventName : JsVal) (l1 l2 : list (JsVal * Closure)) :
  listenersOf eventName (l1 ++ l2)
  = listenersOf eventName l1 ++ listenersOf eventName l2.
Proof. unfold listenersOf. now rewrite filter_app, map_app. Qed.

(** X3: once [start] has run in a world where nobody listens to a lifecycle
    event, emitting that event dispatches exactly the update of that event
    ([error] carrying the emitted value), completes normally, and changes
    nothing else, except that [connect] also sets the one timeout of the
    detection. *)
Theorem lifecycle_event_dispatches_its_update (w : World)
    (config arg : JsVal) (eventName : string) (a : Action)
    (Hconfig : nullish config = false)
    (Hnobody : listenersOf (JStr eventName) (listeners w) = [])
    (Hupdate : lifecycleUpdate eventName arg = Some a) :
  let w1 := snd (start config w) in
  let w2 := snd (emit (JStr eventName) arg w1) in
  fst (emit (JStr eventName) arg w1) = Normal tt
  /\ dispatched w2 = dispatched w1 ++ [a]
  /\ timeouts w2
     = timeouts w1 ++ (if String.eqb eventName "connect" then [nextId w1]
                       else [])
  /\ rpcLog w2 = rpcLog w1
  /\ listeners w2 = listeners w1
  /\ this w2 = this w1.
Proof.
  cbv zeta. rewrite (start_started w config Hconfig). cbn [snd].
  assert (E : emit (JStr eventName) arg (started config w)
              = callAll (listenersOf (JStr eventName)
                           (lifecycleListeners (S (nextId w))))
                  arg (started config w)).
  { unfold emit, bind, get.
    replace (listeners (started config w))
      with (listeners w ++ lifecycleListeners (S (nextId w)))
      by reflexivity.
    now rewrite listenersOf_app, Hnobody. }
  rewrite E. clear E.
  unfold lifecycleUpdate in Hupdate.
  repeat match type of Hupdate with
         | (if String.eqb ?x ?y then _ else _) = _ =>
             destruct (String.eqb_spec x y) as [->|?];
             cbv iota in Hupdate
         end;
    try discriminate Hupdate;
    injection Hupdate as <-;
    cbn [app listenersOf lifecycleListeners filter map fst snd JsVal_eqb
         String.eqb Ascii.eqb Bool.eqb callAll call fn_site];
    unfold bind, onStarting, onStarted, onConnect, onStopping, onStopped,
      onDisconnect, onError, dispatch, setTimeout, fresh;
    cbv [bind modify ret]; world_simpl; rewrite ?app_nil_r;
    repeat split; try reflexivity; now destruct (started config w).
Qed.

Lemma lifecycle_event_dispatches_its_update_witness :
  dispatched (run [CallStart mainnet; Emit (JStr "error") (JStr "boom")]
                initialWorld)
  = [Actions.updateNetwork (JStr "main"); Actions.updateSyncMode (JStr "light");
     Actions.gethError (JStr "boom")].
Proof.
  pose proof (lifecycle_event_dispatches_its_update initialWorld mainnet
                (JStr "boom") "error" (Actions.gethError (JStr "boom"))
                eq_refl eq_refl eq_refl) as (_ & H & _).
  vm_compute in H. vm_compute. exact H.
Defined.

(** ** Every step is a sequence of effects *)

Lemma Effects_trans (w v u : World) : Effects w v -> Effects v u -> Effects w u.
Proof.
  intros Hwv Hvu. induction Hvu as [|v v' u Hvv' IH Hu]; [exact Hwv|].
  eapply Effects_more; [now apply IH|exact Hu].
Qed.

Lemma Keeps_modify (I : World -> Prop) (f : World -> World) :
  (forall w, I w -> I (f w)) -> Keeps I (modify f).
Proof. intros Hf w Hw. now apply Hf. Qed.

Lemma Keeps_fresh (I : World -> Prop) :
  (forall w, I w -> I (withNextId (S (nextId w)) w)) -> Keeps I fresh.
Proof. intros Hf w Hw. now apply Hf. Qed.

Lemma Keeps_removeListener_method (I : World -> Prop) (eventName : JsVal)
    (m : Method) :
  Keeps I (geth_removeListener eventName (MethodRef m)).
Proof. apply Keeps_pure. intro w. now rewrite geth_removeListener_method. Qed.

Ltac effect_now :=
  let v := fresh "v" in
  let Hv := fresh "Hv" in
  intros v Hv; eapply Effects_more; [exact Hv|];
  first [ apply E_setConfig | apply E_start | apply E_stop | apply E_fresh
        | apply E_on | apply E_rpc; reflexivity | apply E_setInterval
        | apply E_setTimeout | apply E_clearInterval | apply E_dispatch
        | apply E_log | apply E_unhandled | apply E_this ].

Ltac head_of t :=
  lazymatch t with
  | ?f _ => head_of f
  | _ => t
  end.

Ltac effects_step :=
  lazymatch goal with
  | |- Keeps _ (bind _ _) => apply Keeps_bind; [|intro]
  | |- Keeps _ (if _ then _ else _) => apply Keeps_if
  | |- Keeps _ (ret _) => apply Keeps_pure; reflexivity
  | |- Keeps _ (throw _) => apply Keeps_pure; reflexivity
  | |- Keeps _ (get _) => apply Keeps_pure; reflexivity
  | |- Keeps _ fresh => apply Keeps_fresh; effect_now
  | |- Keeps _ (modify _) => apply Keeps_modify; effect_now
  | |- Keeps _ (geth_removeListener _ (MethodRef _)) =>
      apply Keeps_removeListener_method
  | |- Keeps _ (clearInterval ?h) => destruct h; unfold clearInterval
  | |- Keeps _ ?m => let h := head_of m in unfold h
  end.

Ltac effects_chain := repeat effects_step.

Lemma Effects_onSyncing (w0 : World) (result : JsVal) :
  Keeps (Effects w0) (onSyncingSubscriptionResult result).
Proof.
  unfold onSyncingSubscriptionResult.
  destruct result as [| |[|]| | | |]; effects_chain.
Qed.

Lemma Effects_call (w0 : World) (f : Closure) (arg : JsVal) :
  Keeps (Effects w0) (call f arg).
Proof.
  unfold call. destruct (fn_site f); try apply Effects_onSyncing;
    effects_chain.
Qed.

Lemma Effects_callAll (w0 : World) (fs : list Closure) (arg : JsVal) :
  Keeps (Effects w0) (callAll fs arg).
Proof.
  induction fs as [|f fs IH]; simpl; [now apply Keeps_pure|].
  apply Keeps_bind; [apply Effects_call|intro; exact IH].
Qed.

Lemma Effects_resume (w0 : World) (k : Continuation) (value : JsVal) :
  Keeps (Effects w0) (resume k value).
Proof.
  destruct k; unfold resume; try (destruct value as [| |[|]| | | |]);
    effects_chain.
Qed.

Lemma Effects_runDetached (w0 : World) (m : Js unit) :
  Keeps (Effects w0) m -> Keeps (Effects w0) (runDetached m).
Proof.
  intros Hm w Hw. unfold runDetached. pose proof (Hm w Hw) as H.
  destruct (m w) as [[u|e] w']; simpl in *; [exact H|].
  eapply Effects_more; [exact H|apply E_unhandled].
Qed.

Lemma Effects_step (w0 : World) (i : Input) : Keeps (Effects w0) (step i).
Proof.
  destruct i as [config| |e a|p v|p r|t|t]; simpl.
  - effects_chain.
  - effects_chain.
  - unfold emit. apply Keeps_bind; [now apply Keeps_pure|intro].
    apply Effects_callAll.
  - intros w Hw. unfold fulfil.
    destruct (takePending p (pending w)) as [[k rest]|] eqn:E; [|exact Hw].
    apply Effects_runDetached; [apply Effects_resume|].
    eapply Effects_more; [exact Hw|]. eapply E_settle. exact E.
  - intros w Hw. unfold reject.
    destruct (takePending p (pending w)) as [[k rest]|] eqn:E; [|exact Hw].
    eapply Effects_more; [|apply E_unhandled].
    eapply Effects_more; [exact Hw|]. eapply E_settle. exact E.
  - intros w Hw. unfold fireTimeout.
    destruct (member t (timeouts w)); [|exact Hw].
    assert (H0 : Effects w0
                   (withTimers
                      (filter (fun i => negb (Nat.eqb i t)) (timeouts w))
                      (intervals w) w)).
    { eapply Effects_more; [exact Hw|apply E_fireTimeout]. }
    revert H0. generalize (withTimers
                      (filter (fun i => negb (Nat.eqb i t)) (timeouts w))
                      (intervals w) w).
    change (Keeps (Effects w0) connectTimeoutCallback). effects_chain.
  - intros w Hw. unfold tick.
    destruct (member t (intervals w)); [|exact Hw].
    revert w Hw. change (Keeps (Effects w0) updatePeerCount). effects_chain.
Qed.

Lemma Effects_run (inputs : list Input) :
  forall w, Effects w (run inputs w).
Proof.
  assert (H : forall w0 w, Effects w0 w -> Effects w0 (run inputs w)).
  { induction inputs as [|i inputs IH]; intros w0 w Hw; simpl; [exact Hw|].
    apply IH. now apply Effects_step. }
  intro w. apply H. constructor.
Qed.

Lemma Effect_listeners (w v : World) :
  Effect w v -> exists added, listeners v = listeners w ++ added.
Proof.
  intros [ ]; world_simpl;
    try (exists []; now rewrite app_nil_r).
  now eexists.
Qed.

Lemma Effect_rpcLog (w v : World) :
  Effect w v ->
  exists calls,
    rpcLog v = rpcLog w ++ calls /\ forallb serviceCall calls = true.
Proof.
  intros [ | | | | |method params id k w' Hcall| | | | | | | | | ];
    world_simpl; try (exists []; now rewrite app_nil_r).
  eexists. split; [reflexivity|]. cbn [forallb]. now rewrite Hcall.
Qed.

(** X4: no execution ever unregisters a listener: whatever the inputs, the
    listeners of the emitter afterwards are those before, in the same
    order, followed by the ones added since. *)
Theorem listeners_only_grow (inputs : list Input) (w : World) :
  exists added, listeners (run inputs w) = listeners w ++ added.
Proof.
  induction (Effects_run inputs w) as [w|w v u Hwv IH Hvu].
  - exists []. now rewrite app_nil_r.
  - destruct IH as [l1 E1]. destruct (Effect_listeners _ _ Hvu) as [l2 E2].
    exists (l1 ++ l2). now rewrite E2, E1, app_assoc.
Qed.

(** X5: the service only ever sends the five methods of the node's
    protocol, with the parameters of the source: [eth_syncing] and
    [net_peerCount] without parameters, [eth_getBlockByNumber] with
    [latest] and [false], [eth_subscribe] with [newHeads] or [syncing],
    [eth_unsubscribe] with one id.  Whatever the inputs, the calls already
    sent stay as they are and every call added is one of these. *)
Theorem only_protocol_calls_are_sent (inputs : list Input) (w : World) :
  exists calls,
    rpcLog (run inputs w) = rpcLog w ++ calls
    /\ forallb serviceCall calls = true.
Proof.
  induction (Effects_run inputs w) as [w|w v u Hwv IH Hvu].
  - exists []. now rewrite app_nil_r.
  - destruct IH as (c1 & E1 & F1).
    destruct (Effect_rpcLog _ _ Hvu) as (c2 & E2 & F2).
    exists (c1 ++ c2). split; [now rewrite E2, E1, app_assoc|].
    now rewrite forallb_app, F1, F2.
Qed.

(** ** What [stop] does *)

Lemma unsubscribeSyncing_world (w : World) :
  unsubscribeSyncingSubscription w = (Normal tt, syncReleased w).
Proof.
  unfold syncReleased.
  destruct (truthy (syncingSubscriptionId (this w))) eqn:Hs.
  - now rewrite unsubscribeSyncing_active.
  - now rewrite unsubscribeSyncing_idle.
Qed.

Lemma unsubscribeNewHeads_world (w : World) :
  unsubscribeNewHeadsSubscription w = (Normal tt, newHeadsReleased w).
Proof.
  unfold newHeadsReleased.
  destruct (truthy (newHeadsSubscriptionId (this w))) eqn:Hn.
  - now rewrite unsubscribeNewHeads_active.
  - now rewrite unsubscribeNewHeads_idle.
Qed.

Lemma stop_world (w : World) :
  stop w
  = console_log "∆∆∆ done stop" (newHeadsReleased (syncReleased (halted w))).
Proof.
  rewrite stop_from_halted. unfold bind.
  now rewrite unsubscribeSyncing_world, unsubscribeNewHeads_world,
    removeListeners_inert.
Qed.

Lemma syncReleased_effects (w : World) :
  rpcLog (syncReleased w)
  = rpcLog w ++ (if truthy (syncingSubscriptionId (this w))
                 then [mkRpc "eth_unsubscribe"
                         (Some [syncingSubscriptionId (this w)])]
                 else [])
  /\ syncingSubscriptionId (this (syncReleased w))
     = released (syncingSubscriptionId (this w))
  /\ newHeadsSubscriptionId (this (syncReleased w))
     = newHeadsSubscriptionId (this w)
  /\ peerCountInterval (this (syncReleased w)) = peerCountInterval (this w)
  /\ gethCalls (syncReleased w) = gethCalls w
  /\ intervals (syncReleased w) = intervals w
  /\ timeouts (syncReleased w) = timeouts w
  /\ dispatched (syncReleased w) = dispatched w
  /\ console (syncReleased w) = console w.
Proof.
  unfold syncReleased, released.
  destruct (truthy (syncingSubscriptionId (this w)));
    [|rewrite app_nil_r; repeat split].
  unfold setSyncingSubscriptionId, modify. world_simpl. repeat split.
Qed.

Lemma newHeadsReleased_effects (w : World) :
  rpcLog (newHeadsReleased w)
  = rpcLog w ++ (if truthy (newHeadsSubscriptionId (this w))
                 then [mkRpc "eth_unsubscribe"
                         (Some [newHeadsSubscriptionId (this w)])]
                 else [])
  /\ syncingSubscriptionId (this (newHeadsReleased w))
     = syncingSubscriptionId (this w)
  /\ newHeadsSubscriptionId (this (newHeadsReleased w))
     = released (newHeadsSubscriptionId (this w))
  /\ peerCountInterval (this (newHeadsReleased w)) = peerCountInterval (this w)
  /\ gethCalls (newHeadsReleased w) = gethCalls w
  /\ intervals (newHeadsReleased w) = intervals w
  /\ timeouts (newHeadsReleased w) = timeouts w
  /\ dispatched (newHeadsReleased w) = dispatched w
  /\ console (newHeadsReleased w) = console w.
Proof.
  unfold newHeadsReleased, released.
  destruct (truthy (newHeadsSubscriptionId (this w)));
    [|rewrite app_nil_r; repeat split].
  unfold setNewHeadsSubscriptionId, modify. world_simpl. repeat split.
Qed.

Lemma halted_effects (w : World) :
  halted w
  = withTimers (timeouts w)
      (withoutInterval (peerCountInterval (this w)) (intervals w))
      (withGeth (gethConfig w) (gethCalls w ++ [GethStop]) w).
Proof.
  unfold halted, geth_stop, clearInterval, modify, withoutInterval.
  destruct w as [[[id|] s n] cfg calls ls log ps tos ivs ds out errs nx];
    reflexivity.
Qed.

Lemma stop_effects (w : World) :
  fst (stop w) = Normal tt
  /\ gethCalls (snd (stop w)) = gethCalls w ++ [GethStop]
  /\ rpcLog (snd (stop w)) = rpcLog w ++ unsubscribeCalls w
  /\ syncingSubscriptionId (this (snd (stop w)))
     = released (syncingSubscriptionId (this w))
  /\ newHeadsSubscriptionId (this (snd (stop w)))
     = released (newHeadsSubscriptionId (this w))
  /\ peerCountInterval (this (snd (stop w))) = peerCountInterval (this w)
  /\ intervals (snd (stop w))
     = withoutInterval (peerCountInterval (this w)) (intervals w)
  /\ timeouts (snd (stop w)) = timeouts w
  /\ dispatched (snd (stop w)) = dispatched w
  /\ console (snd (stop w)) = console w ++ ["∆∆∆ done stop"].
Proof.
  rewrite stop_world. unfold console_log, modify. cbn [fst snd].
  destruct (newHeadsReleased_effects (syncReleased (halted w)))
    as (N1 & N2 & N3 & N4 & N5 & N6 & N7 & N8 & N9).
  destruct (syncReleased_effects (halted w))
    as (S1 & S2 & S3 & S4 & S5 & S6 & S7 & S8 & S9).
  world_simpl.
  rewrite N1, N2, N3, N4, N5, N6, N7, N8, N9.
  rewrite S1, S2, S3, S4, S5, S6, S7, S8, S9.
  rewrite halted_effects. world_simpl. unfold unsubscribeCalls.
  rewrite <- app_assoc. repeat split.
Qed.

(** X6: [stop] never throws; it stops the process, sends one
    [eth_unsubscribe] for each feed whose handle is truthy (the sync feed
    first) and no other RPC, nulls those handles and leaves a falsy handle
    as it is, clears the interval whose handle it holds and no other timer,
    dispatches nothing and logs one line. *)
Theorem stop_releases_feeds_and_poller (w : World) :
  fst (stop w) = Normal tt
  /\ gethCalls (snd (stop w)) = gethCalls w ++ [GethStop]
  /\ rpcLog (snd (stop w)) = rpcLog w ++ unsubscribeCalls w
  /\ syncingSubscriptionId (this (snd (stop w)))
     = released (syncingSubscriptionId (this w))
  /\ newHeadsSubscriptionId (this (snd (stop w)))
     = released (newHeadsSubscriptionId (this w))
  /\ intervals (snd (stop w))
     = withoutInterval (peerCountInterval (this w)) (intervals w)
  /\ timeouts (snd (stop w)) = timeouts w
  /\ dispatched (snd (stop w)) = dispatched w.
Proof.
  destruct (stop_effects w) as (H1 & H2 & H3 & H4 & H5 & _ & H7 & H8 & H9 & _).
  repeat split; assumption.
Qed.

Lemma member_filtered (id : nat) (ids : list nat) :
  member id (filter (fun i => negb (Nat.eqb i id)) ids) = false.
Proof.
  unfold member. induction ids as [|i ids IH]; simpl; [reflexivity|].
  destruct (Nat.eqb_spec i id) as [->|Hne]; simpl; [exact IH|].
  rewrite IH. destruct (Nat.eqb_spec id i); [congruence|reflexivity].
Qed.

(** X7: once [stop] has run, the interval the service held is no longer
    set: a tick of it does nothing at all, so the poller sends no more
    [net_peerCount]. *)
Theorem stop_cancels_poller (w : World) (id : nat)
    (Hheld : peerCountInterval (this w) = Some id) :
  member id (intervals (snd (stop w))) = false
  /\ tick id (snd (stop w)) = (Normal tt, snd (stop w)).
Proof.
  destruct (stop_effects w) as (_ & _ & _ & _ & _ & _ & Hi & _).
  assert (Hm : member id (intervals (snd (stop w))) = false).
  { rewrite Hi, Hheld. apply member_filtered. }
  split; [exact Hm|]. unfold tick. now rewrite Hm.
Qed.

Lemma stop_cancels_poller_witness :
  peerCountInterval (this connected) = Some 0
  /\ member 0 (intervals (snd (stop connected))) = false.
Proof.
  split; [reflexivity|].
  exact (proj1 (stop_cancels_poller connected 0 eq_refl)).
Defined.

(** ** Numbers on the way out *)

Lemma toNumberString_hexEncode (n : N) :
  toNumberString (JStr (hexEncode n)) = JStr (decimalString n).
Proof.
  unfold toNumberString. rewrite isHex_hexEncode.
  unfold hexToNumberString. now rewrite BigNumber_hexEncode.
Qed.

Lemma decimal_digits_not_hex (d : Decimal.uint) :
  String.prefix "0x" (NilZero.string_of_uint d) = false.
Proof.
  unfold NilZero.string_of_uint.
  destruct d as [|d|d|d|d|d|d|d|d|d|d]; try reflexivity;
    destruct d as [|d|d|d|d|d|d|d|d|d|d]; reflexivity.
Qed.

(** X8: [toNumberString] is idempotent: what it returns is never again a
    hexadecimal string, so normalizing twice is normalizing once. *)
Theorem toNumberString_idempotent (v : JsVal) :
  toNumberString (toNumberString v) = toNumberString v
  /\ isHex (toNumberString v) = false.
Proof.
  assert (H : isHex (toNumberString v) = false).
  { destruct v as [| |b|z|s|items|fields]; try reflexivity.
    unfold toNumberString. destruct (isHex (JStr s)) eqn:Hs; [|exact Hs].
    unfold hexToNumberString, toString10, isHex.
    destruct (BigNumber s) as [n|]; [apply decimal_digits_not_hex|reflexivity]. }
  split; [|exact H].
  destruct (toNumberString v) as [| |b|z|s|items|fields] eqn:E;
    try reflexivity.
  unfold toNumberString. now rewrite H.
Qed.

(** X9: when a tick's [net_peerCount] is answered, exactly one
    [updatePeerCount] is dispatched: with the decimal string of the count
    when the answer is its hexadecimal encoding, and with the answer itself
    when it is not a hexadecimal string. *)
Theorem peer_count_is_normalized (w : World) (timer : nat) (n : N)
    (v : JsVal)
    (Hrunning : member timer (intervals w) = true)
    (Hfresh : promisesFresh w)
    (Hplain : isHex v = false) :
  dispatched (run [Tick timer; Fulfil (nextId w) (JStr (hexEncode n))] w)
  = dispatched w ++ [Actions.updatePeerCount (JStr (decimalString n))]
  /\ dispatched (run [Tick timer; Fulfil (nextId w) v] w)
     = dispatched w ++ [Actions.updatePeerCount v].
Proof.
  assert (E : forall value,
            run [Tick timer; Fulfil (nextId w) value] w
            = emitted (Actions.updatePeerCount (toNumberString value))
                (withRpc (rpcLog w ++ [mkRpc "net_peerCount" None])
                   (pending w ++ [])
                   (sent "net_peerCount" None AfterPeerCount w))).
  { intro value. unfold run, fold_left, after, step, tick. rewrite Hrunning.
    unfold updatePeerCount. rewrite geth_rpc_sent. cbn [snd].
    unfold fulfil. cbn [pending rpcLog sent withRpc withNextId].
    now rewrite takePending_later by exact Hfresh. }
  rewrite !E. unfold emitted. world_simpl.
  rewrite toNumberString_hexEncode. split; [reflexivity|].
  destruct v as [| |b|z|s|items|fields]; try reflexivity.
  unfold toNumberString. now rewrite Hplain.
Qed.

Lemma peer_count_is_normalized_witness :
  member 0 (intervals connected) = true
  /\ promisesFresh connected
  /\ isHex (JNum 25) = false
  /\ dispatched (run [Tick 0; Fulfil 11 (JStr (hexEncode 25))] connected)
     = dispatched connected ++ [Actions.updatePeerCount (JStr "25")].
Proof.
  assert (Hfresh : promisesFresh connected).
  { unfold promisesFresh. vm_compute. repeat constructor. }
  split; [reflexivity|]. split; [exact Hfresh|]. split; [reflexivity|].
  pose proof (peer_count_is_normalized connected 0 25 (JNum 25) eq_refl Hfresh
                eq_refl) as [H _].
  vm_compute in H. vm_compute. exact H.
Defined.

(** ** Block headers *)

(** X10: a header of the newHeads feed whose number and timestamp are
    hexadecimal encodings is dispatched as one [newBlock] carrying their
    decimal strings, converted by [Number]; so is the block that answers
    [eth_getBlockByNumber] after a connect. *)
Theorem block_headers_are_normalized (w : World) (number timestamp : N)
    (p : nat) (rest : list (nat * Continuation))
    (Hpending : takePending p (pending w) = Some (AfterGetBlock, rest)) :
  onNewHeadsSubscriptionResult
    (JObj [("result", wireHeader number timestamp)]) w
  = (Normal tt, emitted (blockUpdate number timestamp) w)
  /\ fulfil p (wireHeader number timestamp) w
     = (Normal tt,
        emitted (blockUpdate number timestamp) (withRpc (rpcLog w) rest w)).
Proof.
  split.
  - unfold onNewHeadsSubscriptionResult, wireHeader, blockUpdate.
    cbv [destructurable nullish bind ret dispatch modify getProp lookupField
         String.eqb Ascii.eqb Bool.eqb truthy negb].
    now rewrite !toNumberString_hexEncode.
  - unfold fulfil. rewrite Hpending.
    unfold resume, runDetached, wireHeader, blockUpdate.
    cbv [destructurable nullish bind ret dispatch modify getProp lookupField
         String.eqb Ascii.eqb Bool.eqb].
    now rewrite !toNumberString_hexEncode.
Qed.

Lemma block_headers_are_normalized_witness :
  takePending 9 (pending connected)
  = Some (AfterGetBlock, [(10, AfterEthSyncing)])
  /\ dispatched (snd (fulfil 9 (wireHeader 436 5) connected))
     = dispatched connected ++
       [Actions.newBlock (Number (JStr "436")) (Number (JStr "5"))].
Proof.
  split; [reflexivity|].
  pose proof (block_headers_are_normalized connected 436 5 9
                [(10, AfterEthSyncing)] eq_refl) as [_ H].
  rewrite H. vm_compute. reflexivity.
Defined.

(** X11: when [eth_getBlockByNumber] is answered with [null] or
    [undefined], reading the block throws inside the [then] callback: the
    error is left as an unhandled rejection, no [newBlock] is dispatched and
    nothing else changes. *)
Theorem missing_last_block_is_unhandled (w : World) (block : JsVal)
    (p : nat) (rest : list (nat * Continuation))
    (Hpending : takePending p (pending w) = Some (AfterGetBlock, rest))
    (Hmissing : nullish block = true) :
  fulfil p block w
  = (Normal tt,
     withObservers (dispatched w) (console w) (unhandled w ++ [TypeError])
       (withRpc (rpcLog w) rest w)).
Proof.
  unfold fulfil. rewrite Hpending. unfold resume, runDetached.
  cbv [destructurable bind]. rewrite Hmissing. reflexivity.
Qed.

Lemma missing_last_block_is_unhandled_witness :
  dispatched (snd (fulfil 9 JNull connected)) = dispatched connected
  /\ unhandled (snd (fulfil 9 JNull connected)) = [TypeError].
Proof.
  rewrite (missing_last_block_is_unhandled connected JNull 9
             [(10, AfterEthSyncing)] eq_refl eq_refl).
  vm_compute. repeat split.
Defined.

(** ** A subscription, from its confirmation to its events *)

Lemma JsVal_eqb_refl : forall v : JsVal, JsVal_eqb v v = true.
Proof.
  fix IH 1. intros [| |b|z|s|items|fields]; simpl; try reflexivity.
  - now destruct b.
  - apply Z.eqb_refl.
  - apply String.eqb_refl.
  - induction items as [|x xs IHxs]; [reflexivity|].
    now rewrite IH, IHxs.
  - induction fields as [|[k x] xs IHxs]; [reflexivity|].
    now rewrite String.eqb_refl, IH, IHxs.
Qed.

Lemma emit_single (eventName arg : JsVal) (f : Closure) (w : World) :
  listenersOf eventName (listeners w) = [f] ->
  emit eventName arg w = call f arg w.
Proof.
  intro Hf. unfold emit, bind, get. rewrite Hf. simpl. unfold bind, ret.
  now destruct (call f arg w) as [[[]|e] w'].
Qed.

(** X12: when the subscription to the sync feed is confirmed with [id] and
    nobody listens to [id] yet, the handle becomes [id], one listener is
    registered for [id], no RPC is sent, and from then on an event emitted
    for [id] is handled exactly as [onSyncingSubscriptionResult] handles
    it. *)
Theorem sync_feed_confirmed_then_delivers (w : World) (p : nat)
    (rest : list (nat * Continuation)) (id event : JsVal)
    (Hpending : takePending p (pending w) = Some (AfterSubscribeSyncing, rest))
    (Hnobody : listenersOf id (listeners w) = []) :
  let w1 := snd (fulfil p id w) in
  fst (fulfil p id w) = Normal tt
  /\ syncingSubscriptionId (this w1) = id
  /\ newHeadsSubscriptionId (this w1) = newHeadsSubscriptionId (this w)
  /\ listeners w1 = listeners w ++ [(id, mkClosure (nextId w) SyncingArrow)]
  /\ rpcLog w1 = rpcLog w
  /\ dispatched w1 = dispatched w
  /\ emit id event w1 = onSyncingSubscriptionResult event w1.
Proof.
  cbv zeta.
  assert (E : fulfil p id w
              = (Normal tt,
                 registered id SyncingArrow
                   (setThis (fun s => mkService (peerCountInterval s) id
                                        (newHeadsSubscriptionId s))
                      (withRpc (rpcLog w) rest w)))).
  { unfold fulfil. now rewrite Hpending. }
  rewrite E. unfold registered. world_simpl.
  repeat split.
  rewrite (emit_single id event (mkClosure (nextId w) SyncingArrow));
    [reflexivity|].
  world_simpl.
  rewrite listenersOf_app, Hnobody. unfold listenersOf. simpl.
  now rewrite JsVal_eqb_refl.
Qed.

Lemma sync_feed_confirmed_then_delivers_witness :
  emit (JStr "0x9c") progress
    (snd (fulfil 11 (JStr "0x9c") (run [Fulfil 10 (JBool true)] connected)))
  = onSyncingSubscriptionResult progress
      (snd (fulfil 11 (JStr "0x9c") (run [Fulfil 10 (JBool true)] connected))).
Proof.
  pose proof (sync_feed_confirmed_then_delivers
                (run [Fulfil 10 (JBool true)] connected) 11
                [(9, AfterGetBlock)] (JStr "0x9c") progress eq_refl eq_refl)
    as (_ & _ & _ & _ & _ & _ & H).
  exact H.
Defined.

(** X13: when the subscription to the header feed is confirmed with [id]
    and nobody listens to [id] yet, the handle becomes [id], whatever it
    was before and without any [eth_unsubscribe] for an earlier
    subscription, one listener is registered for [id], and from then on an
    event emitted for [id] is handled exactly as
    [onNewHeadsSubscriptionResult] handles it. *)
Theorem head_feed_confirmed_then_delivers (w : World) (p : nat)
    (rest : list (nat * Continuation)) (id event : JsVal)
    (Hpending : takePending p (pending w) = Some (AfterSubscribeNewHeads, rest))
    (Hnobody : listenersOf id (listeners w) = []) :
  let w1 := snd (fulfil p id w) in
  fst (fulfil p id w) = Normal tt
  /\ newHeadsSubscriptionId (this w1) = id
  /\ syncingSubscriptionId (this w1) = syncingSubscriptionId (this w)
  /\ listeners w1 = listeners w ++ [(id, mkClosure (nextId w) NewHeadsArrow)]
  /\ rpcLog w1 = rpcLog w
  /\ dispatched w1 = dispatched w
  /\ emit id event w1 = onNewHeadsSubscriptionResult event w1.
Proof.
  cbv zeta.
  assert (E : fulfil p id w
              = (Normal tt,
                 registered id NewHeadsArrow
                   (setThis (fun s => mkService (peerCountInterval s)
                                        (syncingSubscriptionId s) id)
                      (withRpc (rpcLog w) rest w)))).
  { unfold fulfil. now rewrite Hpending. }
  rewrite E. unfold registered. world_simpl.
  repeat split.
  rewrite (emit_single id event (mkClosure (nextId w) NewHeadsArrow));
    [reflexivity|].
  world_simpl.
  rewrite listenersOf_app, Hnobody. unfold listenersOf. simpl.
  now rewrite JsVal_eqb_refl.
Qed.

Lemma head_feed_confirmed_then_delivers_witness :
  newHeadsSubscriptionId
    (this (snd (fulfil 11 (JStr "0xcd0c")
                  (run [Fulfil 10 (JBool false)] connected))))
  = JStr "0xcd0c".
Proof.
  exact (proj1 (proj2 (head_feed_confirmed_then_delivers
                         (run [Fulfil 10 (JBool false)] connected) 11
                         [(9, AfterGetBlock)] (JStr "0xcd0c") header
                         eq_refl eq_refl))).
Defined.

(** X14: a [false] delivered to the sync handler while the sync handle is
    not set (after a handoff or after [stop], the listener being still
    registered) asks for one more header subscription and sends no
    [eth_unsubscribe]; the handles stay as they were. *)
Theorem false_without_sync_handle_resubscribes (w : World)
    (Hidle : truthy (syncingSubscriptionId (this w)) = false) :
  onSyncingSubscriptionResult (JBool false) w
  = (Normal tt,
     sent "eth_subscribe" (Some [JStr "newHeads"]) AfterSubscribeNewHeads w).
Proof.
  unfold onSyncingSubscriptionResult, startNewHeadsSubscription.
  unfold bind. rewrite geth_rpc_sent.
  now rewrite unsubscribeSyncing_idle.
Qed.

Lemma false_without_sync_handle_resubscribes_witness :
  rpcLog (snd (onSyncingSubscriptionResult (JBool false) headFeedActive))
  = rpcLog headFeedActive ++ [mkRpc "eth_subscribe" (Some [JStr "newHeads"])].
Proof.
  rewrite (false_without_sync_handle_resubscribes headFeedActive eq_refl).
  reflexivity.
Defined.

(** ** Starting again *)

Lemma member_app_left (id : nat) (l1 l2 : list nat) :
  member id l1 = true -> member id (l1 ++ l2) = true.
Proof. unfold member. intro H. now rewrite existsb_app, H. Qed.

Lemma filter_keeps_other (id other : nat) (ids : list nat) :
  id <> other ->
  member id ids = true ->
  member id (filter (fun i => negb (Nat.eqb i other)) ids) = true.
Proof.
  unfold member. intros Hne. induction ids as [|i ids IH]; simpl;
    [discriminate|].
  destruct (Nat.eqb_spec id i) as [<-|Hi]; simpl.
  - destruct (Nat.eqb_spec id other); [contradiction|]. simpl.
    now rewrite Nat.eqb_refl.
  - intro H. destruct (Nat.eqb i other); simpl; [now apply IH|].
    destruct (Nat.eqb_spec id i); [contradiction|]. now apply IH.
Qed.

(** X15: a second [start] on a started service registers seven more
    listeners beside the first seven and sets a second interval, whose
    handle replaces the first; [stop] then clears the second interval only:
    the first one stays set and its ticks go on sending
    [net_peerCount]. *)
Theorem second_start_stacks_on_the_first (w : World) (c1 c2 : JsVal)
    (Hc1 : nullish c1 = false) (Hc2 : nullish c2 = false) :
  let first := nextId w in
  let second := 8 + nextId w in
  let w2 := run [CallStart c1; CallStart c2] w in
  let w3 := run [CallStop] w2 in
  listeners w2
  = listeners w ++ lifecycleListeners (S first) ++ lifecycleListeners (S second)
  /\ intervals w2 = intervals w ++ [first; second]
  /\ peerCountInterval (this w2) = Some second
  /\ member second (intervals w3) = false
  /\ member first (intervals w3) = true
  /\ rpcLog (run [Tick first] w3) = rpcLog w3 ++ [mkRpc "net_peerCount" None].
Proof.
  cbv zeta.
  assert (E2 : run [CallStart c1; CallStart c2] w
               = started c2 (started c1 w)).
  { unfold run, fold_left, after, step.
    now rewrite (start_started w c1 Hc1), (start_started _ c2 Hc2). }
  rewrite E2.
  assert (Hl : listeners (started c2 (started c1 w))
               = listeners w ++ lifecycleListeners (S (nextId w))
                 ++ lifecycleListeners (S (8 + nextId w))).
  { unfold started at 1. world_simpl. unfold started at 1. world_simpl.
    unfold started. world_simpl. now rewrite <- app_assoc. }
  assert (Hi : intervals (started c2 (started c1 w))
               = intervals w ++ [nextId w; 8 + nextId w]).
  { unfold started. world_simpl. now rewrite <- app_assoc. }
  assert (Hp : peerCountInterval (this (started c2 (started c1 w)))
               = Some (8 + nextId w)) by reflexivity.
  split; [exact Hl|]. split; [exact Hi|]. split; [exact Hp|].
  unfold run, fold_left, after, step.
  destruct (stop_effects (started c2 (started c1 w)))
    as (_ & _ & _ & _ & _ & _ & Hs & _).
  rewrite Hp, Hi in Hs. unfold withoutInterval in Hs.
  assert (Hgone : member (8 + nextId w)
                    (intervals (snd (stop (started c2 (started c1 w)))))
                  = false).
  { rewrite Hs. apply member_filtered. }
  assert (Hkept : member (nextId w)
                    (intervals (snd (stop (started c2 (started c1 w)))))
                  = true).
  { rewrite Hs. apply filter_keeps_other; [lia|].
    unfold member. rewrite existsb_app. simpl.
    now rewrite Nat.eqb_refl, orb_true_r. }
  split; [exact Hgone|]. split; [exact Hkept|].
  unfold tick. rewrite Hkept. unfold updatePeerCount.
  now rewrite geth_rpc_sent.
Qed.

Lemma second_start_stacks_on_the_first_witness :
  nullish mainnet = false
  /\ intervals (run [CallStart mainnet; CallStart mainnet] initialWorld) = [0; 8]
  /\ member 0 (intervals (run [CallStop]
                            (run [CallStart mainnet; CallStart mainnet]
                               initialWorld))) = true.
Proof.
  split; [reflexivity|].
  pose proof (second_start_stacks_on_the_first initialWorld mainnet mainnet
                eq_refl eq_refl) as (_ & Hi & _ & _ & Hk & _).
  split; [exact Hi|exact Hk].
Defined.

(** * Properties of the release list item *)

(** ** The display name *)

Lemma splitDash_nonempty (s : string) : VersionListItem.splitDash s <> [].
Proof.
  destruct s as [|c s]; simpl; [discriminate|].
  destruct (Ascii.eqb c "-"); [discriminate|].
  destruct (VersionListItem.splitDash s); discriminate.
Qed.

Lemma splitDash_append (p r : string) :
  VersionListItem.dashFree p = true ->
  VersionListItem.splitDash (p ++ r)
  = match VersionListItem.splitDash r with
    | q :: qs => (p ++ q)%string :: qs
    | [] => []
    end.
Proof.
  induction p as [|c p IH]; intro Hp; simpl in *.
  - now destruct (VersionListItem.splitDash r).
  - apply andb_prop in Hp. destruct Hp as [Hc Hp].
    apply negb_true_iff in Hc. rewrite Hc, (IH Hp).
    pose proof (splitDash_nonempty r) as Hr.
    now destruct (VersionListItem.splitDash r).
Qed.

Lemma append_empty (s : string) : (s ++ EmptyString)%string = s.
Proof. induction s as [|c s IH]; simpl; [reflexivity|now rewrite IH]. Qed.

Lemma splitDash_concat (parts : list string) :
  parts <> [] ->
  Forall (fun p => VersionListItem.dashFree p = true) parts ->
  VersionListItem.splitDash (String.concat "-" parts) = parts.
Proof.
  induction parts as [|p parts IH]; intros Hne Hall; [congruence|].
  inversion Hall as [|? ? Hp Hrest]; subst.
  destruct parts as [|q parts].
  - simpl. rewrite <- (append_empty p) at 1.
    rewrite (splitDash_append p EmptyString Hp). simpl.
    now rewrite append_empty.
  - change (String.concat "-" (p :: q :: parts))
      with (p ++ String "-" (String.concat "-" (q :: parts)))%string.
    rewrite (splitDash_append _ _ Hp).
    change (VersionListItem.splitDash
              (String "-" (String.concat "-" (q :: parts))))
      with (EmptyString
              :: VersionListItem.splitDash (String.concat "-" (q :: parts))).
    rewrite IH by (auto; discriminate).
    now rewrite append_empty.
Qed.

Lemma splitDash_dashFree (name : string) :
  VersionListItem.dashFree name = true ->
  VersionListItem.splitDash name = [name].
Proof.
  intro Hname. apply (splitDash_concat [name]); [discriminate|].
  now constructor.
Qed.

(** X16: for a file name made of a name, an operating system, an
    architecture, a version and any further parts, joined by dashes and
    none containing a dash, the display name is
    [name os version (arch)], the architecture spelled [32 Bit] or [64 Bit]
    when the operating system is [windows] and shown as it is
    otherwise. *)
Theorem releaseDisplayName_of_parts (name os arch version : string)
    (more : list string)
    (Hparts : Forall (fun p => VersionListItem.dashFree p = true)
                (name :: os :: arch :: version :: more)) :
  VersionListItem.releaseDisplayName
    (JObj [("fileName",
            JStr (String.concat "-" (name :: os :: arch :: version :: more)))])
  = Normal (name ++ " " ++ os ++ " " ++ version ++ " ("
            ++ VersionListItem.shownArch os arch ++ ")")%string.
Proof.
  unfold VersionListItem.releaseDisplayName.
  cbn [nullish getProp lookupField String.eqb Ascii.eqb Bool.eqb].
  rewrite splitDash_concat by (auto; discriminate).
  cbn [nth_error VersionListItem.isLiteral VersionListItem.interpolate].
  unfold VersionListItem.shownArch.
  destruct (String.eqb os "windows"); reflexivity.
Qed.

Lemma releaseDisplayName_of_parts_witness :
  VersionListItem.releaseDisplayName
    (JObj [("fileName", JStr "geth-windows-386-1.8.23-c9427004.zip")])
  = Normal "geth windows 1.8.23 (32 Bit)".
Proof.
  apply (releaseDisplayName_of_parts "geth" "windows" "386" "1.8.23"
           ["c9427004.zip"]).
  repeat constructor.
Defined.

(** X17: [releaseDisplayName] returns a name exactly when the release has a
    string for [fileName], and throws a [TypeError] otherwise; parts the
    file name does not have are shown as [undefined], and a Windows
    release without an architecture is shown as [64 Bit]. *)
Theorem releaseDisplayName_of_short_names (release : JsVal) (name : string)
    (Hname : VersionListItem.dashFree name = true) :
  ((exists fileName, getProp release "fileName" = JStr fileName)
   <-> exists shown, VersionListItem.releaseDisplayName release = Normal shown)
  /\ ((forall fileName, getProp release "fileName" <> JStr fileName)
      -> VersionListItem.releaseDisplayName release = Throw TypeError)
  /\ VersionListItem.releaseDisplayName (JObj [("fileName", JStr name)])
     = Normal (name ++ " undefined undefined (undefined)")%string
  /\ VersionListItem.releaseDisplayName
       (JObj [("fileName", JStr (name ++ "-windows"))])
     = Normal (name ++ " windows undefined (64 Bit)")%string.
Proof.
  split; [|split; [|split]].
  - unfold VersionListItem.releaseDisplayName. split.
    + intros [fileName Hf].
      destruct release as [| |b|z|s|items|fields]; try discriminate Hf.
      simpl nullish. cbv iota. rewrite Hf. eexists. reflexivity.
    + intros [shown Hs].
      destruct (nullish release); [discriminate|].
      destruct (getProp release "fileName") as [| |b|z|s|items|fields];
        try discriminate Hs.
      now exists s.
  - intro Hno. unfold VersionListItem.releaseDisplayName.
    destruct (nullish release); [reflexivity|].
    destruct (getProp release "fileName") as [| |b|z|s|items|fields];
      try reflexivity.
    now contradiction (Hno s).
  - unfold VersionListItem.releaseDisplayName.
    cbn [nullish getProp lookupField String.eqb Ascii.eqb Bool.eqb].
    rewrite (splitDash_dashFree name Hname).
    reflexivity.
  - unfold VersionListItem.releaseDisplayName.
    cbn [nullish getProp lookupField String.eqb Ascii.eqb Bool.eqb].
    change (name ++ "-windows")%string
      with (String.concat "-" [name; "windows"]).
    rewrite splitDash_concat by (repeat constructor; auto; discriminate).
    reflexivity.
Qed.

Lemma releaseDisplayName_of_short_names_witness :
  VersionListItem.dashFree "geth" = true
  /\ VersionListItem.releaseDisplayName (JObj [("fileName", JStr "geth")])
     = Normal "geth undefined undefined (undefined)"
  /\ VersionListItem.releaseDisplayName (JObj [("name", JStr "geth")])
     = Throw TypeError.
Proof.
  split; [reflexivity|].
  destruct (releaseDisplayName_of_short_names
              (JObj [("name", JStr "geth")]) "geth" eq_refl)
    as (_ & Hthrow & Hshort & _).
  split; [exact Hshort|]. apply Hthrow. intros fileName H. discriminate H.
Defined.

(** ** Downloading *)

Lemma handle_oneAtATime (e : VersionListItem.Event)
    (c : VersionListItem.Component) :
  VersionListItem.oneAtATime c ->
  VersionListItem.oneAtATime (VersionListItem.handle e c).
Proof.
  unfold VersionListItem.oneAtATime.
  destruct c as [[busy progress] calls awaited]. simpl.
  intros [Hlen Hbusy].
  destruct e as [release|value|i|i error]; simpl.
  - unfold VersionListItem.handleReleaseSelected.
    destruct (nullish release); simpl; [now split|].
    destruct (truthy (getProp release "remote")); simpl; [|now split].
    unfold VersionListItem.downloadRelease. simpl.
    destruct busy; simpl; [now split|].
    destruct awaited as [|r rs]; [|discriminate].
    simpl. split; [lia|reflexivity].
  - now split.
  - unfold VersionListItem.downloaded. simpl.
    destruct awaited as [|r [|r' rs]]; simpl in *; try lia.
    + destruct i; simpl; now split.
    + destruct i as [|[|i]]; simpl; split; auto; lia.
  - unfold VersionListItem.downloadFailed. simpl.
    destruct awaited as [|r [|r' rs]]; simpl in *; try lia.
    + destruct i; simpl; now split.
    + destruct i as [|[|i]]; simpl; split; auto; lia.
Qed.

Lemma play_oneAtATime (events : list VersionListItem.Event) :
  forall c,
  VersionListItem.oneAtATime c ->
  VersionListItem.oneAtATime (VersionListItem.play events c).
Proof.
  induction events as [|e events IH]; intros c Hc; simpl; [exact Hc|].
  apply IH. now apply handle_oneAtATime.
Qed.

(** X18: whatever is clicked and however the downloads end, a mounted item
    never awaits two downloads at once, and [isDownloading] is set exactly
    while a download is awaited: a click on a remote release while one is
    under way starts nothing. *)
Theorem downloads_one_at_a_time (events : list VersionListItem.Event)
    (release : JsVal) :
  let c := VersionListItem.play events VersionListItem.mounted in
  VersionListItem.oneAtATime c
  /\ (VersionListItem.isDownloading (VersionListItem.state c) = true ->
      VersionListItem.handle (VersionListItem.Click release) c = c).
Proof.
  cbv zeta. split.
  - apply play_oneAtATime. unfold VersionListItem.oneAtATime. simpl. auto.
  - intro Hbusy. simpl. unfold VersionListItem.handleReleaseSelected.
    destruct (nullish release); [reflexivity|].
    destruct (truthy (getProp release "remote")); [|reflexivity].
    simpl. unfold VersionListItem.downloadRelease. now rewrite Hbusy.
Qed.

Lemma downloads_one_at_a_time_witness :
  VersionListItem.calls
    (VersionListItem.play
       [VersionListItem.Click (JObj [("remote", JBool true)]);
        VersionListItem.Click (JObj [("remote", JBool true)])]
       VersionListItem.mounted)
  = VersionListItem.calls
      (VersionListItem.play
         [VersionListItem.Click (JObj [("remote", JBool true)])]
         VersionListItem.mounted).
Proof.
  pose proof (proj2 (downloads_one_at_a_time
                       [VersionListItem.Click (JObj [("remote", JBool true)])]
                       (JObj [("remote", JBool true)])) eq_refl) as H.
  change (VersionListItem.play
            [VersionListItem.Click (JObj [("remote", JBool true)]);
             VersionListItem.Click (JObj [("remote", JBool true)])]
            VersionListItem.mounted)
    with (VersionListItem.handle
            (VersionListItem.Click (JObj [("remote", JBool true)]))
            (VersionListItem.play
               [VersionListItem.Click (JObj [("remote", JBool true)])]
               VersionListItem.mounted)).
  now rewrite H.
Defined.

(** X19: from an idle item, a click on a remote release calls
    [client.download] once; when that download fails, the item calls
    [handleDownloadError] with the error and then, all the same,
    [handleReleaseDownloaded] with the release, and it is back in its
    initial state, so that the next click downloads again. *)
Theorem failed_download_still_reports_downloaded
    (c : VersionListItem.Component) (release error : JsVal)
    (Hidle : VersionListItem.isDownloading (VersionListItem.state c) = false)
    (Hnone : VersionListItem.awaited c = [])
    (Hremote : truthy (getProp release "remote") = true) :
  let c1 := VersionListItem.play
              [VersionListItem.Click release; VersionListItem.Failed 0 error]
              c in
  VersionListItem.calls c1
  = VersionListItem.calls c ++
    [VersionListItem.ConsoleLog [JStr "download release"];
     VersionListItem.ClientDownload release;
     VersionListItem.HandleDownloadError error;
     VersionListItem.HandleReleaseDownloaded release]
  /\ VersionListItem.state c1 = VersionListItem.initialState
  /\ VersionListItem.awaited c1 = []
  /\ VersionListItem.awaited
       (VersionListItem.handle (VersionListItem.Click release) c1)
     = [release].
Proof.
  cbv zeta. destruct c as [[busy progress] calls awaited]. simpl in *.
  subst busy awaited.
  assert (Hobj : nullish release = false).
  { destruct release; try discriminate Hremote; reflexivity. }
  unfold VersionListItem.handleReleaseSelected. rewrite Hobj, Hremote. simpl.
  rewrite <- app_assoc. repeat split.
Qed.

Lemma failed_download_still_reports_downloaded_witness :
  VersionListItem.calls
    (VersionListItem.play
       [VersionListItem.Click (JObj [("remote", JBool true)]);
        VersionListItem.Failed 0 (JStr "offline")]
       VersionListItem.mounted)
  = [VersionListItem.ConsoleLog [JStr "download release"];
     VersionListItem.ClientDownload (JObj [("remote", JBool true)]);
     VersionListItem.HandleDownloadError (JStr "offline");
     VersionListItem.HandleReleaseDownloaded (JObj [("remote", JBool true)])].
Proof.
  exact (proj1 (failed_download_still_reports_downloaded
                  VersionListItem.mounted (JObj [("remote", JBool true)])
                  (JStr "offline") eq_refl eq_refl eq_refl)).
Defined.

(** ** Rendering *)

(** X20: for a release that is there, the icon is the spinner with the
    progress while downloading, the cloud for a remote release and the
    hidden check box for a local one: never the blank placeholder and never
    the visible check box; and the label is [Downloading] or [Download] for
    a remote release and [Use] for a local one, never [Selected]. *)
Theorem icon_and_label_follow_the_release (release : JsVal)
    (c : VersionListItem.Component)
    (Hthere : nullish release = false) :
  VersionListItem.renderIcon release c
  = Normal
      (if VersionListItem.isDownloading (VersionListItem.state c)
       then VersionListItem.Spinner
              (VersionListItem.downloadProgress (VersionListItem.state c))
       else if truthy (getProp release "remote")
            then VersionListItem.CloudDownloadIcon
            else VersionListItem.HiddenCheckBoxIcon)
  /\ VersionListItem.actionLabel release c
     = Normal
         (if truthy (getProp release "remote")
          then (if VersionListItem.isDownloading (VersionListItem.state c)
                then "Downloading" else "Download")
          else "Use").
Proof.
  unfold VersionListItem.renderIcon, VersionListItem.actionLabel,
    VersionListItem.isSelectedRelease.
  rewrite Hthere.
  destruct (VersionListItem.isDownloading (VersionListItem.state c)),
    (truthy (getProp release "remote")); split; reflexivity.
Qed.

Lemma icon_and_label_follow_the_release_witness :
  VersionListItem.renderIcon (JObj [("remote", JBool false)])
    VersionListItem.mounted
  = Normal VersionListItem.HiddenCheckBoxIcon
  /\ VersionListItem.actionLabel (JObj [("remote", JBool false)])
       VersionListItem.mounted
     = Normal "Use".
Proof.
  exact (icon_and_label_follow_the_release (JObj [("remote", JBool false)])
           VersionListItem.mounted eq_refl).
Defined.

(** * Properties of the log viewer *)

Lemma dropFirst_last (eventName : string) (f : nat)
    (ls : list (string * nat)) :
  rev (Terminal.dropFirst eventName f (rev (ls ++ [(eventName, f)]))) = ls.
Proof.
  rewrite rev_app_distr. simpl.
  rewrite String.eqb_refl, Nat.eqb_refl. simpl. apply rev_involutive.
Qed.

(** X21: unmounting undoes mounting: [unsubscribeLogs] removes exactly the
    listener [subscribeLogs] added, the same function object, and leaves
    every other listener of the emitter, in order, and the logs as they
    were. *)
Theorem unsubscribeLogs_undoes_subscribeLogs (w : Terminal.World) :
  Terminal.componentWillUnmount (Terminal.componentDidMount w) = w.
Proof.
  destruct w as [self logs ls].
  unfold Terminal.componentWillUnmount, Terminal.componentDidMount,
    Terminal.unsubscribeLogs, Terminal.subscribeLogs,
    Terminal.geth_removeListener, Terminal.geth_on. simpl.
  now rewrite dropFirst_last.
Qed.

Lemma callAll_logs (fs : list nat) (arg : JsVal) :
  forall w,
  Terminal.callAll fs arg w
  = Terminal.mkWorld (Terminal.self w)
      (Terminal.logs w
       ++ repeat arg
            (List.length (filter (fun f => Nat.eqb f (Terminal.self w)) fs)))
      (Terminal.listeners w).
Proof.
  induction fs as [|f fs IH]; intros [self logs ls]; simpl.
  - now rewrite app_nil_r.
  - destruct (Nat.eqb f self); rewrite IH; simpl; [|reflexivity].
    now rewrite <- app_assoc.
Qed.

Lemma filter_map_snd (name : string) (self : nat)
    (ls : list (string * nat)) :
  List.length
    (filter (fun f => Nat.eqb f self)
       (map snd (filter (fun l => String.eqb (fst l) name) ls)))
  = List.length
      (filter (fun l => String.eqb (fst l) name && Nat.eqb (snd l) self) ls).
Proof.
  induction ls as [|[k f] ls IH]; simpl; [reflexivity|].
  destruct (String.eqb k name); simpl; [|exact IH].
  destruct (Nat.eqb f self); simpl; now rewrite IH.
Qed.

Lemma emit_log (line : JsVal) (w : Terminal.World) :
  Terminal.emit "log" line w
  = Terminal.mkWorld (Terminal.self w)
      (Terminal.logs w ++ repeat line (Terminal.subscriptions w))
      (Terminal.listeners w).
Proof.
  unfold Terminal.emit, Terminal.subscriptions.
  now rewrite callAll_logs, filter_map_snd.
Qed.

Lemma emitLogs_once (lines : list JsVal) :
  forall w,
  Terminal.subscriptions w = 1 ->
  Terminal.emitLogs lines w
  = Terminal.mkWorld (Terminal.self w) (Terminal.logs w ++ lines)
      (Terminal.listeners w).
Proof.
  induction lines as [|line lines IH]; intros [self logs ls] Hone; simpl.
  - now rewrite app_nil_r.
  - unfold Terminal.emitLogs in *. simpl. rewrite emit_log. simpl.
    rewrite Hone. rewrite IH by exact Hone. simpl.
    now rewrite <- app_assoc.
Qed.

Lemma emitLogs_none (lines : list JsVal) :
  forall w,
  Terminal.subscriptions w = 0 -> Terminal.emitLogs lines w = w.
Proof.
  induction lines as [|line lines IH]; intros [self logs ls] Hnone; simpl;
    [reflexivity|].
  unfold Terminal.emitLogs in *. simpl. rewrite emit_log. simpl.
  rewrite Hnone. simpl. rewrite app_nil_r. now apply IH.
Qed.

(** X22: a terminal that was not listening shows, once mounted, every log
    line emitted, in the order of emission and once each; once unmounted it
    takes no more lines. *)
Theorem mounted_terminal_collects_logs (w : Terminal.World)
    (lines later : list JsVal)
    (Hfresh : Terminal.subscriptions w = 0) :
  let w1 := Terminal.emitLogs lines (Terminal.componentDidMount w) in
  Terminal.logs w1 = Terminal.logs w ++ lines
  /\ Terminal.emitLogs later (Terminal.componentWillUnmount w1) = 
     Terminal.mkWorld (Terminal.self w) (Terminal.logs w ++ lines)
       (Terminal.listeners w).
Proof.
  cbv zeta.
  assert (Hone : Terminal.subscriptions (Terminal.componentDidMount w) = 1).
  { destruct w as [self logs ls]. unfold Terminal.subscriptions in *.
    simpl in *. rewrite filter_app, length_app, Hfresh. simpl.
    now rewrite Nat.eqb_refl. }
  rewrite (emitLogs_once lines _ Hone).
  split; [now destruct w|].
  destruct w as [self logs ls]. simpl in *.
  unfold Terminal.componentWillUnmount, Terminal.unsubscribeLogs,
    Terminal.geth_removeListener. simpl.
  rewrite dropFirst_last.
  apply emitLogs_none. exact Hfresh.
Qed.

Lemma mounted_terminal_collects_logs_witness :
  Terminal.logs
    (Terminal.emitLogs [JStr "INFO starting"; JStr "INFO started"]
       (Terminal.componentDidMount (Terminal.constructed 7 [("log", 3)])))
  = [JStr "INFO starting"; JStr "INFO started"].
Proof.
  exact (proj1 (mounted_terminal_collects_logs
                  (Terminal.constructed 7 [("log", 3)])
                  [JStr "INFO starting"; JStr "INFO started"] [] eq_refl)).
Defined.
